(** * Loan applicant ingestion: the rule-based field repair engine

    A shallow embedding of [main3_rulebased.py]: the field validators, the
    per-value classifier, the identifier allocator, the row repair pass, the
    oracle decoding step, the upsert and the two endpoints, followed by the
    properties of the specification that concern them.

    Text is modelled as Rocq [string]s of ASCII characters: codes above 127
    are treated as plain symbols (neither digit, letter nor blank).  Python
    integers are [Z].  A data-frame cell is an [option string]: [None] stands
    for both [None] and [NaN], which the code never tells apart ([is_null],
    [dropna] and [fillna] treat them alike). *)

From Stdlib Require Import ZArith Ascii String List Bool Lia.
From Stdlib Require Import DecimalString DecimalZ DecimalPos Decimal.
From Stdlib Require Import Sorting.Mergesort Sorting.Sorted Sorting.Permutation.
From stdpp Require Import base gmap sets list strings.

Local Open Scope Z_scope.

(** ** Python string primitives *)

Module Py.

Definition code (c : ascii) : N := N_of_ascii c.

Definition in_range (lo hi : N) (c : ascii) : bool :=
  ((lo <=? code c) && (code c <=? hi))%N.

(** [c.isdigit()] and the class [[0-9]]. *)
Definition is_digit : ascii -> bool := in_range 48 57.
Definition is_upper : ascii -> bool := in_range 65 90.
Definition is_lower : ascii -> bool := in_range 97 122.
Definition is_alpha (c : ascii) : bool := is_upper c || is_lower c.

(** Blanks of [str.strip()], [str.split()] and the class [\s]:
    tab to carriage return, the four separators 28..31, and space. *)
Definition is_space (c : ascii) : bool :=
  in_range 9 13 c || in_range 28 31 c || (code c =? 32)%N.

Definition lower_char (c : ascii) : ascii :=
  if is_upper c then ascii_of_N (code c + 32) else c.
Definition upper_char (c : ascii) : ascii :=
  if is_lower c then ascii_of_N (code c - 32) else c.

Fixpoint smap (f : ascii -> ascii) (s : string) : string :=
  match s with
  | EmptyString => EmptyString
  | String c r => String (f c) (smap f r)
  end.

Fixpoint sall (p : ascii -> bool) (s : string) : bool :=
  match s with
  | EmptyString => true
  | String c r => p c && sall p r
  end.

Fixpoint sany (p : ascii -> bool) (s : string) : bool :=
  match s with
  | EmptyString => false
  | String c r => p c || sany p r
  end.

Definition len (s : string) : Z := Z.of_nat (String.length s).

Definition lower : string -> string := smap lower_char.
Definition upper : string -> string := smap upper_char.

Fixpoint lstrip (s : string) : string :=
  match s with
  | EmptyString => EmptyString
  | String c r => if is_space c then lstrip r else s
  end.

Fixpoint rstrip (s : string) : string :=
  match s with
  | EmptyString => EmptyString
  | String c r =>
      match rstrip r with
      | EmptyString => if is_space c then EmptyString else String c EmptyString
      | r' => String c r'
      end
  end.

Definition strip (s : string) : string := lstrip (rstrip s).

(** [s.isdigit()]: at least one character, all of them digits. *)
Definition isdigit (s : string) : bool :=
  match s with
  | EmptyString => false
  | _ => sall is_digit s
  end.

(** [sub in s]. *)
Fixpoint contains (sub s : string) : bool :=
  String.prefix sub s ||
  match s with
  | EmptyString => false
  | String _ r => contains sub r
  end.

(** [s.split()]: the maximal runs of non-blank characters. *)
Fixpoint split_go (cur : option string) (s : string) : list string :=
  match s with
  | EmptyString =>
      match cur with Some w => [String.rev w] | None => [] end
  | String c r =>
      if is_space c then
        match cur with
        | Some w => String.rev w :: split_go None r
        | None => split_go None r
        end
      else
        split_go (Some (String c (default EmptyString cur))) r
  end.
Definition split : string -> list string := split_go None.

(** [s.title()]: a letter is upper-cased when it does not follow a letter
    and lower-cased when it does; other characters are kept. *)
Fixpoint title_go (prev_cased : bool) (s : string) : string :=
  match s with
  | EmptyString => EmptyString
  | String c r =>
      if is_alpha c then
        String (if prev_cased then lower_char c else upper_char c)
               (title_go true r)
      else String c (title_go false r)
  end.
Definition title : string -> string := title_go false.

Definition digit_val (c : ascii) : Z := Z.of_N (code c - 48).

(** [int(s)] on a string of decimal digits. *)
Fixpoint digits_go (acc : Z) (s : string) : Z :=
  match s with
  | EmptyString => acc
  | String c r => digits_go (10 * acc + digit_val c) r
  end.
Definition int_of_digits : string -> Z := digits_go 0.

(** [int(s)] in general: surrounding blanks are dropped, one sign is
    allowed, and single underscores may separate digits.  [None] is
    [ValueError]. *)
Fixpoint int_body (acc : Z) (prev_digit : bool) (s : string) : option Z :=
  match s with
  | EmptyString => if prev_digit then Some acc else None
  | String c r =>
      if is_digit c then int_body (10 * acc + digit_val c) true r
      else if Ascii.eqb c "_" && prev_digit then
        match r with
        | EmptyString => None
        | _ => int_body acc false r
        end
      else None
  end.

Definition int (s : string) : option Z :=
  match strip s with
  | String "+" r => int_body 0 false r
  | String "-" r => Z.opp <$> int_body 0 false r
  | t => int_body 0 false t
  end.

(** [str(n)] for an integer. *)
Definition str_int (n : Z) : string := NilZero.string_of_int (Z.to_int n).

(** [s[1:]]. *)
Definition tail (s : string) : string :=
  match s with
  | EmptyString => EmptyString
  | String _ r => r
  end.

(** Truth value of an optional integer: [None] and [0] are false. *)
Definition truthy (o : option Z) : bool :=
  match o with
  | Some n => negb (n =? 0)
  | None => false
  end.

End Py.

(** ** Regular expressions, matched by derivatives *)

Module Re.

Inductive regex : Type :=
| Never
| Eps
| Cls (p : ascii -> bool)
| Cat (r1 r2 : regex)
| Alt (r1 r2 : regex)
| Star (r : regex).

Definition Chr (c : ascii) : regex := Cls (Ascii.eqb c).
Definition Plus (r : regex) : regex := Cat r (Star r).

Fixpoint Rep (n : nat) (r : regex) : regex :=
  match n with
  | O => Eps
  | S k => Cat r (Rep k r)
  end.

(** [r{n,}] *)
Definition AtLeast (n : nat) (r : regex) : regex := Cat (Rep n r) (Star r).

Fixpoint nullable (r : regex) : bool :=
  match r with
  | Never => false
  | Eps => true
  | Cls _ => false
  | Cat r1 r2 => nullable r1 && nullable r2
  | Alt r1 r2 => nullable r1 || nullable r2
  | Star _ => true
  end.

Fixpoint deriv (c : ascii) (r : regex) : regex :=
  match r with
  | Never => Never
  | Eps => Never
  | Cls p => if p c then Eps else Never
  | Cat r1 r2 =>
      if nullable r1 then Alt (Cat (deriv c r1) r2) (deriv c r2)
      else Cat (deriv c r1) r2
  | Alt r1 r2 => Alt (deriv c r1) (deriv c r2)
  | Star r1 => Cat (deriv c r1) (Star r1)
  end.

Fixpoint accepts (r : regex) (s : string) : bool :=
  match s with
  | EmptyString => nullable r
  | String c t => accepts (deriv c r) t
  end.

(** [bool(re.match("^" r "$", s))]: the whole of [s] is matched by [r],
    up to one final line feed, before which [$] also matches. *)
Definition anchored (r : regex) (s : string) : bool :=
  accepts (Cat r (Alt Eps (Chr "010"))) s.

(** The language of a regular expression. *)
Inductive matches : regex -> string -> Prop :=
| matches_eps : matches Eps EmptyString
| matches_cls p c : p c = true -> matches (Cls p) (String c EmptyString)
| matches_cat r1 r2 s1 s2 :
    matches r1 s1 -> matches r2 s2 -> matches (Cat r1 r2) (s1 +:+ s2)
| matches_alt_l r1 r2 s : matches r1 s -> matches (Alt r1 r2) s
| matches_alt_r r1 r2 s : matches r2 s -> matches (Alt r1 r2) s
| matches_star_nil r : matches (Star r) EmptyString
| matches_star_more r s1 s2 :
    matches r s1 -> matches (Star r) s2 -> matches (Star r) (s1 +:+ s2).

End Re.

(** ** Controlled lists *)

Definition LOAN_PURPOSES : list string :=
  ["education"; "home renovation"; "car"; "business"; "personal"; "medical"].

Definition EMPLOYMENT_TYPES : list string :=
  ["salaried"; "self employed"; "unemployed"].

(** [v in l] for a list of strings. *)
Definition str_in (v : string) (l : list string) : bool :=
  existsb (String.eqb v) l.

(** ** Validators *)

(** The class [[^@\s]]. *)
Definition not_at_space (c : ascii) : bool :=
  negb (Ascii.eqb c "@") && negb (Py.is_space c).

(** The class [[A-Za-z ]]. *)
Definition alpha_or_blank (c : ascii) : bool :=
  Py.is_alpha c || Ascii.eqb c " ".

Definition valid_id (v : string) : bool :=
  Re.anchored (Re.Cat (Re.Chr "A") (Re.Plus (Re.Cls Py.is_digit))) (Py.strip v).

Definition valid_email (v : string) : bool :=
  Re.anchored
    (Re.Cat (Re.Plus (Re.Cls not_at_space))
       (Re.Cat (Re.Chr "@")
          (Re.Cat (Re.Plus (Re.Cls not_at_space))
             (Re.Cat (Re.Chr ".") (Re.AtLeast 2 (Re.Cls not_at_space))))))
    (Py.strip v).

Definition valid_phone (v : string) : bool :=
  let s := Py.strip v in
  Py.isdigit s && (Py.len s =? 10) &&
  match s with
  | String c _ => Py.sany (Ascii.eqb c) "6789"
  | EmptyString => false
  end.

Definition valid_aadhaar (v : string) : bool :=
  let s := Py.strip v in
  Py.isdigit s && (Py.len s =? 12).

Definition valid_pan (v : string) : bool :=
  Re.anchored
    (Re.Cat (Re.Rep 5 (Re.Cls Py.is_upper))
       (Re.Cat (Re.Rep 4 (Re.Cls Py.is_digit)) (Re.Cls Py.is_upper)))
    (Py.upper (Py.strip v)).

Definition valid_loan_amount (v : string) : bool :=
  match Py.int (Py.strip v) with
  | Some n => (500000 <=? n) && (n <=? 10000000)
  | None => false
  end.

Definition valid_monthly_income (v : string) : bool :=
  match Py.int (Py.strip v) with
  | Some n => (25000 <=? n) && (n <=? 1000000)
  | None => false
  end.

Definition valid_name (v : string) : bool :=
  let parts := Py.split (Py.strip v) in
  (2 <=? Z.of_nat (length parts)) &&
  Re.anchored (Re.Plus (Re.Cls alpha_or_blank)) (Py.strip v) &&
  forallb (fun p => 2 <=? Py.len p) parts.

(** ** Helpers *)

Definition cell : Type := option string.

(** [str(v)] of a cell. *)
Definition py_str (v : cell) : string := default "None" v.

Definition is_null_str (s : string) : bool :=
  str_in (Py.strip s) ["nan"; "None"; "NaT"; "none"; "null"; ""].

Definition is_null (v : cell) : bool := is_null_str (py_str v).

(** ** Outcomes of effectful code

    [Raise e] is a Python exception reaching the caller.  [Diverge] is a loop
    of the model that used up its bound. *)

Inductive exn : Type :=
| RequestException   (* the HTTP round-trip to the oracle failed *)
| JSONDecodeError    (* the oracle's body is not JSON *)
| TypeError
| KeyError
| ValueError
| DBAPIError         (* the database refused a connection or a statement *).

Inductive result (A : Type) : Type :=
| Ok (a : A)
| Raise (e : exn)
| Diverge.
Arguments Ok {A} a.
Arguments Raise {A} e.
Arguments Diverge {A}.

#[global] Instance result_ret : MRet result := fun _ a => Ok a.

#[global] Instance result_bind : MBind result := fun _ _ k m =>
  match m with
  | Ok a => k a
  | Raise e => Raise e
  | Diverge => Diverge
  end.

(** ** The identifier allocator *)

(** [int(r[0][1:])] for the store keys [r[0]] matched by [^A[0-9]+$]; a
    failure inside the comprehension falls back to the empty set, like a
    failed read ([rows = None]). *)
Definition db_ids (rows : option (list string)) : gset Z :=
  match rows with
  | None => ∅
  | Some rs =>
      let matching :=
        filter (fun r => Is_true (Re.anchored
                  (Re.Cat (Re.Chr "A") (Re.Plus (Re.Cls Py.is_digit))) r)) rs in
      match mapM (fun r => Py.int (Py.tail r)) matching with
      | Some ns => list_to_set ns
      | None => ∅
      end
  end.

Definition max_step (x : Z) (acc : option Z) : option Z :=
  Some (match acc with Some m => Z.max x m | None => x end).

(** [max(s)], or [None] for the empty set. *)
Definition set_max (s : gset Z) : option Z :=
  foldr max_step None (elements s).

(** [while n in all_used: n += 1], at most [fuel] tests. *)
Fixpoint first_free (fuel : nat) (all_used : gset Z) (n : Z) : result Z :=
  match fuel with
  | O => Diverge
  | S k =>
      if decide (n ∈ all_used) then first_free k all_used (n + 1) else Ok n
  end.

(** [next_id()]: the identifier returned and the new value of [_used_ids].
    [rows] is what the store answers to the read of its keys. *)
Definition next_id (rows : option (list string)) (_used_ids : gset Z)
  : result (string * gset Z) :=
  let all_used := db_ids rows ∪ _used_ids in
  let start := match set_max all_used with Some m => m + 1 | None => 101 end in
  n ← first_free (S (size all_used)) all_used start;
  Ok (String "A" (Py.str_int n), {[ n ]} ∪ _used_ids).



(** ** The mapping oracle *)

(** A decoded JSON value.  An object is the list of its items in insertion
    order, as a Python [dict] keeps them. *)
#[warnings="-register-all"]
Inductive json : Type :=
| JNull
| JBool (b : bool)
| JNum (literal : string)
| JStr (s : string)
| JArr (items : list json)
| JObj (items : list (string * json)).

(** What the HTTP round-trip gives. *)
Inductive response : Type :=
| TransportFailure          (* [requests.post] raises *)
| NotJson                   (* [r.json()] raises *)
| Json (raw : json).

Definition is_JStr (k : string) (j : json) : bool :=
  match j with
  | JStr s => String.eqb s k
  | _ => false
  end.

(** [d[k]] and [k in d] for a [dict]. *)
Fixpoint dict_get (k : string) (d : list (string * json)) : option json :=
  match d with
  | [] => None
  | (k', v) :: rest => if String.eqb k' k then Some v else dict_get k rest
  end.

Definition dict_has (k : string) (d : list (string * json)) : bool :=
  match dict_get k d with Some _ => true | None => false end.

(** [k in raw] for a string [k]. *)
Definition py_in (k : string) (raw : json) : result bool :=
  match raw with
  | JObj d => Ok (dict_has k d)
  | JArr l => Ok (existsb (is_JStr k) l)
  | JStr s => Ok (Py.contains k s)
  | _ => Raise TypeError
  end.

(** [raw[k]] for a string [k] that is [in raw]. *)
Definition py_getitem (raw : json) (k : string) : result json :=
  match raw with
  | JObj d => match dict_get k d with Some v => Ok v | None => Raise KeyError end
  | _ => Raise TypeError
  end.

(** [{k: v for k, v in mp.items() if k != "is_valid"}] *)
Definition drop_is_valid (mp : list (string * json)) : list (string * json) :=
  filter (fun kv => negb (String.eqb (fst kv) "is_valid")) mp.

Section Oracle.

(** [json.loads]; [None] when it raises. *)
Variable json_loads : string -> option json.

(** The decoding of [raw] that follows [r.json()]. *)
Definition decode_mapping (raw : json) : result (list (string * json)) :=
  let mp := JObj [] in
  (* Case 1: nested result.result *)
  mp ← (in_raw ← py_in "result" raw;
         if in_raw : bool then
           res ← py_getitem raw "result";
           match res with
           | JObj d =>
               if dict_has "mapping" d then Ok (default mp (dict_get "mapping" d))
               else if dict_has "result" d then Ok (default mp (dict_get "result" d))
               else Ok mp
           | _ => Ok mp
           end
         else Ok mp);
  (* Case 2: mapping at root *)
  mp ← (in_raw ← py_in "mapping" raw;
         if in_raw : bool then py_getitem raw "mapping" else Ok mp);
  (* If mapping is string, parse JSON *)
  let mp := match mp with
            | JStr s => default (JObj []) (json_loads s)
            | _ => mp
            end in
  (* Ensure dict *)
  let items := match mp with JObj d => d | _ => [] end in
  Ok (drop_is_valid items).

Definition call_llm (resp : response) : result (list (string * json)) :=
  match resp with
  | TransportFailure => Raise RequestException
  | NotJson => Raise JSONDecodeError
  | Json raw => decode_mapping raw
  end.

End Oracle.

(** ** Canonical records and data frames *)

Inductive field : Type :=
| ApplicantId | ApplicantName | PhoneNumber | Email | AadhaarNumber
| PanNumber | LoanAmount | LoanPurpose | EmploymentType | MonthlyIncome.

#[global] Instance field_eq_dec : EqDecision field.
Proof. solve_decision. Defined.

Definition field_name (f : field) : string :=
  match f with
  | ApplicantId => "applicant_id"
  | ApplicantName => "applicant_name"
  | PhoneNumber => "phone_number"
  | Email => "email"
  | AadhaarNumber => "aadhaar_number"
  | PanNumber => "pan_number"
  | LoanAmount => "loan_amount"
  | LoanPurpose => "loan_purpose"
  | EmploymentType => "employment_type"
  | MonthlyIncome => "monthly_income"
  end.

(** One row of the mapped frame: a cell for each canonical column. *)
Record record : Type := {
  applicant_id : cell;
  applicant_name : cell;
  phone_number : cell;
  email : cell;
  aadhaar_number : cell;
  pan_number : cell;
  loan_amount : cell;
  loan_purpose : cell;
  employment_type : cell;
  monthly_income : cell
}.

(** [df.at[i, f]] *)
Definition get (f : field) (r : record) : cell :=
  match f with
  | ApplicantId => applicant_id r
  | ApplicantName => applicant_name r
  | PhoneNumber => phone_number r
  | Email => email r
  | AadhaarNumber => aadhaar_number r
  | PanNumber => pan_number r
  | LoanAmount => loan_amount r
  | LoanPurpose => loan_purpose r
  | EmploymentType => employment_type r
  | MonthlyIncome => monthly_income r
  end.

(** The row whose cell for [f] is [h f]. *)
Definition build (h : field -> cell) : record :=
  {| applicant_id := h ApplicantId;
     applicant_name := h ApplicantName;
     phone_number := h PhoneNumber;
     email := h Email;
     aadhaar_number := h AadhaarNumber;
     pan_number := h PanNumber;
     loan_amount := h LoanAmount;
     loan_purpose := h LoanPurpose;
     employment_type := h EmploymentType;
     monthly_income := h MonthlyIncome |}.

(** [df.at[i, f] = v] *)
Definition set (f : field) (v : cell) (r : record) : record :=
  build (fun g => if decide (g = f) then v else get g r).

(** The uploaded sheet as [read_excel] gives it: the header and, for each
    row, its cells in column order. *)
Record frame : Type := {
  columns : list string;
  data : list (list cell)
}.

(** [df.rename(columns=mp)]: the new label of column [c].  A label that is
    not a string can equal no canonical column name. *)
Definition rename (mp : list (string * json)) (c : string) : json :=
  default (JStr c) (dict_get c mp).

(** The cell of the column labelled [f], absent columns giving [None]. *)
Fixpoint column_cell (f : string) (labels : list json) (vals : list cell) : cell :=
  match labels, vals with
  | l :: labels', v :: vals' =>
      if is_JStr f l then v else column_cell f labels' vals'
  | _, _ => None
  end.

(** [ensure_columns] on one row of the renamed frame.  The row model is
    that of the code on the sheets where no two columns carry the same
    canonical label after renaming, so that every [df.at[i, f]] is one
    cell. *)
Definition ensure_columns (labels : list json) (vals : list cell) : record :=
  build (fun f => column_cell (field_name f) labels vals).

(** ** Pass 1: invalidation *)

Definition FIELD_VALIDATORS : list (field * (string -> bool)) :=
  [ (ApplicantId, valid_id);
    (ApplicantName, valid_name);
    (PhoneNumber, valid_phone);
    (Email, valid_email);
    (AadhaarNumber, valid_aadhaar);
    (PanNumber, valid_pan);
    (LoanAmount, valid_loan_amount);
    (LoanPurpose, fun v => str_in (Py.lower (Py.strip v)) LOAN_PURPOSES);
    (EmploymentType, fun v => str_in (Py.lower (Py.strip v)) EMPLOYMENT_TYPES);
    (MonthlyIncome, valid_monthly_income) ].

Definition skip (f : field) : bool :=
  bool_decide (f = LoanAmount) || bool_decide (f = MonthlyIncome).

Definition invalidate_cell (r : record) (fv : field * (string -> bool)) : record :=
  let '(f, validator) := fv in
  if skip f then r
  else
    let val := Py.strip (py_str (get f r)) in
    if is_null_str val || negb (validator val) then set f None r else r.

Definition invalidate (df : list record) : list record :=
  map (fun r => foldl invalidate_cell r FIELD_VALIDATORS) df.

(** ** Pass 2: repair *)

Module Bucket.

(** The keys of [bucket], but for ["numeric"], whose list holds integers. *)
Inductive key : Type :=
| id | email | phone | aadhaar | pan | name | employment | purpose.

End Bucket.

#[global] Instance bucket_key_eq_dec : EqDecision Bucket.key.
Proof. solve_decision. Defined.

(** A classified value: the bucket it is appended to and what is appended. *)
Inductive entry : Type :=
| Text (k : Bucket.key) (s : string)
| Numeric (n : Z).

(** Step 2 for one value; [None] when no rule applies. *)
Definition classify (v : string) : option entry :=
  let lv := Py.lower v in
  if valid_id v then Some (Text Bucket.id v)
  else if valid_email v then Some (Text Bucket.email v)
  else if valid_pan v then Some (Text Bucket.pan (Py.upper v))
  else if valid_aadhaar v then Some (Text Bucket.aadhaar v)
  else if valid_phone v then Some (Text Bucket.phone v)
  else if str_in lv EMPLOYMENT_TYPES then Some (Text Bucket.employment (Py.title lv))
  else if str_in lv LOAN_PURPOSES then Some (Text Bucket.purpose (Py.title lv))
  else if Py.isdigit v then Some (Numeric (Py.int_of_digits v))
  else if (3 <=? Py.len v) && negb (Py.sany Py.is_digit v)
       then Some (Text Bucket.name (Py.title v))
  else None.

(** [bucket[k]]: the values appended under [k], in input order. *)
Definition bucket (k : Bucket.key) (es : list entry) : list string :=
  omap (fun e => match e with
                 | Text k' s => if decide (k' = k) then Some s else None
                 | Numeric _ => None
                 end) es.

(** [bucket["numeric"]] *)
Definition numeric (es : list entry) : list Z :=
  omap (fun e => match e with Numeric n => Some n | Text _ _ => None end) es.

(** [sorted] on integers. *)
Fixpoint insert_sorted (x : Z) (l : list Z) : list Z :=
  match l with
  | [] => [x]
  | y :: rest => if x <=? y then x :: l else y :: insert_sorted x rest
  end.

Definition sorted (l : list Z) : list Z := foldr insert_sorted [] l.

(** One turn of the loop of step 4 over [(loan, income)]. *)
Definition split_step (acc : option Z * option Z) (n : Z) : option Z * option Z :=
  let '(loan, income) := acc in
  if valid_phone (Py.str_int n) then acc
  else if (n <? 500000) && negb (Py.truthy income) then (loan, Some n)
  else if (n >? 500000) && negb (Py.truthy loan) then (Some n, income)
  else acc.

(** Step 4 up to the two assignments: the final [(loan, income)]. *)
Definition numeric_split (nums : list Z) : option Z * option Z :=
  foldl split_step (None, None) (sorted nums).

(** [if bucket[k]: df.at[i, f] = bucket[k][0]] *)
Definition assign_first (k : Bucket.key) (f : field) (es : list entry)
  (r : record) : record :=
  match bucket k es with
  | v :: _ => set f (Some v) r
  | [] => r
  end.

(** [if n: df.at[i, f] = str(n)] *)
Definition assign_number (n : option Z) (f : field) (r : record) : record :=
  match n with
  | Some x => if Py.truthy n then set f (Some (Py.str_int x)) r else r
  | None => r
  end.

Definition int_or_raise (s : string) : result Z :=
  match Py.int s with
  | Some n => Ok n
  | None => Raise ValueError
  end.

(** The loop that opens [repair]: identifiers already in the frame are
    registered. *)
Definition register_existing (df : list record) (_used_ids : gset Z)
  : result (gset Z) :=
  foldl (fun acc r =>
           u ← acc;
           match applicant_id r with
           | Some aid =>
               if valid_id (Py.strip aid) then
                 n ← int_or_raise (Py.tail (Py.strip aid));
                 Ok ({[ n ]} ∪ u)
               else Ok u
           | None => Ok u
           end) (Ok _used_ids) df.

(** A JSON value that cannot be the key of a [dict]. *)
Definition unhashable (j : json) : bool :=
  match j with
  | JArr _ | JObj _ => true
  | _ => false
  end.

(** [field_to_excel = {v: k for k, v in col_map.items()}]: the dictionary is
    never read, but building it hashes every value of the mapping. *)
Definition field_to_excel (col_map : list (string * json)) : result unit :=
  if existsb (fun kv => unhashable (snd kv)) col_map then Raise TypeError
  else Ok tt.

Section Repair.

(** [str(int(float(val)))]; [None] when [float] or [int] raises. *)
Variable str_int_float : string -> option string.

(** What the store answers when its keys are read. *)
Variable rows : option (list string).

(** Step 1: the values of the original row that are not placeholders,
    trimmed, with scientific notation written out. *)
Definition raw_vals (orig_row : list cell) : list string :=
  omap (fun v : cell =>
          if is_null v then None
          else
            let val := Py.strip (py_str v) in
            Some (if Py.contains "e+" (Py.lower val)
                  then default val (str_int_float val)
                  else val)) orig_row.

(** The body of the loop over the rows. *)
Definition repair_row (orig_row : list cell) (r : record) (_used_ids : gset Z)
  : result (record * gset Z) :=
  let es := omap classify (raw_vals orig_row) in
  (* Step 3 *)
  '(aid, u) ← match bucket Bucket.id es with
              | v :: _ => Ok (v, _used_ids)
              | [] => next_id rows _used_ids
              end;
  let r := set ApplicantId (Some aid) r in
  n ← int_or_raise (Py.tail aid);
  let u := {[ n ]} ∪ u in
  let r := assign_first Bucket.email Email es r in
  let r := assign_first Bucket.pan PanNumber es r in
  let r := assign_first Bucket.aadhaar AadhaarNumber es r in
  let r := assign_first Bucket.phone PhoneNumber es r in
  let r := assign_first Bucket.employment EmploymentType es r in
  let r := assign_first Bucket.purpose LoanPurpose es r in
  let r := assign_first Bucket.name ApplicantName es r in
  (* Step 4 *)
  let '(loan, income) := numeric_split (numeric es) in
  let r := assign_number income MonthlyIncome r in
  let r := assign_number loan LoanAmount r in
  Ok (r, u).

Fixpoint repair_rows (df : list record) (original : list (list cell))
  (_used_ids : gset Z) : result (list record * gset Z) :=
  match df, original with
  | r :: df', orig_row :: original' =>
      '(r', u) ← repair_row orig_row r _used_ids;
      '(rest, u') ← repair_rows df' original' u;
      Ok (r' :: rest, u')
  | _, _ => Ok ([], _used_ids)
  end.

Definition repair (df : list record) (original_df : frame)
  (col_map : list (string * json)) (_used_ids : gset Z)
  : result (list record * gset Z) :=
  _ ← field_to_excel col_map;
  u ← register_existing df _used_ids;
  repair_rows df (data original_df) u.

End Repair.

(** ** The store and the upsert *)

(** A row of [loan_applicants]: the bound parameters and [created_at]. *)
Record stored_row : Type := {
  fields : record;
  created_at : Z
}.

(** The database as the engine sees it during one request. *)
Record database : Type := {
  (** a connection can be opened *)
  reachable : bool;
  (** the statements whose parameters the server refuses *)
  rejects : record -> bool;
  (** [NOW()] *)
  now : Z;
  (** the table, by primary key *)
  loan_applicants : gmap string stored_row
}.

Definition with_table (db : database) (t : gmap string stored_row) : database :=
  {| reachable := reachable db; rejects := rejects db; now := now db;
     loan_applicants := t |}.

(** [SELECT applicant_id FROM loan_applicants] *)
Definition select_ids (db : database) : option (list string) :=
  if reachable db then Some (fst <$> map_to_list (loan_applicants db)) else None.

Definition create_table (db : database) : result unit :=
  if reachable db then Ok tt else Raise DBAPIError.

(** [None if is_null(str(v)) else v] *)
Definition null_to_none (v : cell) : cell :=
  if is_null (Some (py_str v)) then None else v.

(** The parameters [d] bound for one row. *)
Definition params (r : record) : record :=
  build (fun f => null_to_none (get f r)).

(** The loop of [upsert] inside the transaction: [t] is the table as the
    open transaction sees it. *)
Fixpoint upsert_rows (db : database) (df : list record)
  (t : gmap string stored_row) (ins upd : Z)
  : result (gmap string stored_row * Z * Z) :=
  match df with
  | [] => Ok (t, ins, upd)
  | r :: rest =>
      let d := params r in
      let exists_ := match applicant_id d with
                     | Some k => bool_decide (is_Some (t !! k))
                     | None => false
                     end in
      if rejects db d then Raise DBAPIError
      else
        match applicant_id d with
        | Some k =>
            if exists_ then
              upsert_rows db rest
                (alter (fun old => {| fields := d; created_at := created_at old |}) k t)
                ins (upd + 1)
            else
              upsert_rows db rest
                (<[ k := {| fields := d; created_at := now db |} ]> t)
                (ins + 1) upd
        | None => Raise DBAPIError   (* the primary key cannot be NULL *)
        end
  end.

(** [upsert(df)]: what the call gives and the database after it.  The block
    [with engine.begin() as conn] commits when the loop ends and rolls
    back when a statement raises. *)
Definition upsert (db : database) (df : list record)
  : result (Z * Z) * database :=
  if reachable db then
    match upsert_rows db df (loan_applicants db) 0 0 with
    | Ok (t, ins, upd) => (Ok (ins, upd), with_table db t)
    | Raise e => (Raise e, db)
    | Diverge => (Diverge, db)
    end
  else (Raise DBAPIError, db).

(** ** The endpoints *)

Record validated : Type := {
  v_mapping : list (string * json);
  preview : list record
}.

Record uploaded : Type := {
  inserted : Z;
  updated : Z
}.

(** [fillna("")] *)
Definition fillna (r : record) : record :=
  build (fun f => Some (default "" (get f r))).

Section Endpoints.

Variable json_loads : string -> option json.
Variable str_int_float : string -> option string.

(** What both endpoints do between reading the sheet and answering:
    [_used_ids] is cleared, the oracle is asked, the columns are renamed
    and completed, and the frame is repaired. *)
Definition ingest (db : database) (resp : response) (original_df : frame)
  : result (list (string * json) * list record) :=
  let _used_ids : gset Z := ∅ in
  _ ← create_table db;
  mp ← call_llm json_loads resp;
  let labels := rename mp <$> columns original_df in
  let df := ensure_columns labels <$> data original_df in
  '(df, _) ← repair str_int_float (select_ids db) df original_df mp _used_ids;
  Ok (mp, df).

Definition validate (db : database) (resp : response) (original_df : frame)
  : result validated :=
  '(mp, df) ← ingest db resp original_df;
  Ok {| v_mapping := mp; preview := fillna <$> take 20 df |}.

Definition upload (db : database) (resp : response) (original_df : frame)
  : result uploaded * database :=
  match ingest db resp original_df with
  | Ok (mp, df) =>
      match upsert db df with
      | (Ok (ins, upd), db') => (Ok {| inserted := ins; updated := upd |}, db')
      | (Raise e, db') => (Raise e, db')
      | (Diverge, db') => (Diverge, db')
      end
  | Raise e => (Raise e, db)
  | Diverge => (Diverge, db)
  end.

End Endpoints.

(** ** Readings of the specification used in the statements below *)





(** The numeric split as the specification words it: of the sorted values
    that are no phone numbers, the first one below 500000 is the income and
    the first one above 500000 is the loan; the pair is [(loan, income)]. *)
Definition not_phone (n : Z) : bool := negb (valid_phone (Py.str_int n)).

Definition split_by_spec (nums : list Z) : option Z * option Z :=
  let remaining := List.filter not_phone (sorted nums) in
  (List.find (fun n => n >? 500000) remaining,
   List.find (fun n => n <? 500000) remaining).

(** A row of the mapped frame with no prior field values. *)
Definition blank : record := build (fun _ => None).

(** An empty store that accepts every statement. *)
Definition empty_store : database :=
  {| reachable := true; rejects := fun _ => false; now := 0;
     loan_applicants := ∅ |}.

(** A store that refuses the parameters whose key is [k]. *)
Definition refusing (k : string) : database :=
  {| reachable := true;
     rejects := fun d => bool_decide (applicant_id d = Some k);
     now := 0;
     loan_applicants := ∅ |}.

(** No character of [s] is a blank. *)
Definition no_blank (s : string) : bool :=
  Py.sall (fun c => negb (Py.is_space c)) s.

(** [o] when it is set, else [found]. *)
Definition keep (o found : option Z) : option Z :=
  match o with Some _ => o | None => found end.

(** ** More of the source and readings used by the further properties *)

(** The shape [A<digits>]: an "A" followed by at least one digit. *)
Definition id_shape (s : string) : bool :=
  match s with
  | String "A" ds => Py.isdigit ds
  | _ => false
  end.

(** How many of the booleans hold. *)
Definition count_true (l : list bool) : nat :=
  length (List.filter (fun b : bool => b) l).

(** The character "@". *)
Definition is_at : ascii -> bool := Ascii.eqb "@".

(** The characters a text matched by the PAN pattern can hold. *)
Definition pan_char (c : ascii) : bool :=
  Py.is_upper c || Py.is_digit c || Ascii.eqb c "010".

(** [FIELD_VALIDATORS[f]] *)
Definition validator_of (f : field) : string -> bool :=
  match List.find (fun fv : field * (string -> bool) => bool_decide (fst fv = f))
                  FIELD_VALIDATORS with
  | Some fv => snd fv
  | None => fun _ => false
  end.

(** The column that step 3 of [repair] fills from each bucket. *)
Definition target (k : Bucket.key) : field :=
  match k with
  | Bucket.id => ApplicantId
  | Bucket.email => Email
  | Bucket.pan => PanNumber
  | Bucket.aadhaar => AadhaarNumber
  | Bucket.phone => PhoneNumber
  | Bucket.employment => EmploymentType
  | Bucket.purpose => LoanPurpose
  | Bucket.name => ApplicantName
  end.

(** What the invalidation pass leaves of the cell [c] of column [f]. *)
Definition invalidated (f : field) (c : cell) : cell :=
  if skip f then c
  else
    let val := Py.strip (py_str c) in
    if is_null_str val || negb (validator_of f val) then None else c.

(** The parameters of the last record of the batch whose key is [k]. *)
Fixpoint last_params (k : string) (df : list record) : option record :=
  match df with
  | [] => None
  | r :: rest =>
      match last_params k rest with
      | Some d => Some d
      | None =>
          if bool_decide (applicant_id (params r) = Some k)
          then Some (params r) else None
      end
  end.

(** The row an upsert of the batch [df] leaves under the key [k], given the
    row [old] that was there. *)
Definition upserted (now_ : Z) (k : string) (df : list record)
  (old : option stored_row) : option stored_row :=
  match last_params k df with
  | Some d =>
      Some {| fields := d;
              created_at := match old with
                            | Some o => created_at o
                            | None => now_
                            end |}
  | None => old
  end.

(** A value that is set, if it is set, comes from [S], does not read as a
    phone number and lies strictly between the bounds given. *)
Definition fits (S : list Z) (lo hi : option Z) (o : option Z) : Prop :=
  forall n, o = Some n ->
    n ∈ S /\ valid_phone (Py.str_int n) = false /\
    match lo with Some a => a < n | None => True end /\
    match hi with Some b => n < b | None => True end.

(** [isinstance(raw, dict)] *)
Definition is_object (raw : json) : bool :=
  match raw with
  | JObj _ => true
  | _ => false
  end.

(** The bodies that are no object and on which the tests [k in raw] or the
    reads [raw[k]] of [call_llm] raise. *)
Definition trips (raw : json) : bool :=
  match raw with
  | JNull | JBool _ | JNum _ => true
  | JArr l => existsb (is_JStr "result") l || existsb (is_JStr "mapping") l
  | JStr s => Py.contains "result" s || Py.contains "mapping" s
  | JObj _ => false
  end.

(** [normalize_number(v)] for a text [v]; [conv] is
    [str(int(float(v)))], [None] when it raises. *)
Definition normalize_number (conv : string -> option string) (v : string)
  : string :=
  if Py.contains "E+" v || Py.contains "e+" v then default v (conv v) else v.

(** * Properties *)

(** ** The regular expression matcher *)

Module ReFacts.
Import Re.

Lemma append_empty s1 s2 :
  s1 +:+ s2 = EmptyString -> s1 = EmptyString /\ s2 = EmptyString.
Proof. destruct s1; simpl; [auto|discriminate]. Qed.

Lemma nullable_matches r : nullable r = true <-> matches r EmptyString.
Proof.
  split.
  - induction r; simpl; intros H; try discriminate.
    + constructor.
    + apply andb_prop in H as [H1 H2].
      change EmptyString with (EmptyString +:+ EmptyString).
      constructor; auto.
    + apply orb_prop in H as [H|H]; [apply matches_alt_l|apply matches_alt_r]; auto.
    + constructor.
  - intros H. remember EmptyString as s eqn:Es.
    induction H; simpl; try reflexivity; try discriminate.
    + apply append_empty in Es as [-> ->]. rewrite IHmatches1, IHmatches2; auto.
    + rewrite IHmatches; auto.
    + rewrite IHmatches, orb_true_r; auto.
Qed.

Lemma matches_star_head r c s :
  matches (Star r) (String c s) ->
  exists s1 s2, s = s1 +:+ s2 /\ matches r (String c s1) /\ matches (Star r) s2.
Proof.
  intros H. remember (Star r) as r' eqn:Er. remember (String c s) as t eqn:Et.
  revert c s Et. induction H as [| | | | | |r0 s1 s2 H1 _ H2 IH2];
    intros a t Et; try discriminate.
  injection Er as ->. destruct s1 as [|c1 s1].
  - apply IH2; [reflexivity|exact Et].
  - simpl in Et. injection Et as -> <-. eauto.
Qed.

Lemma matches_cat_inv r1 r2 s :
  matches (Cat r1 r2) s ->
  exists s1 s2, s = s1 +:+ s2 /\ matches r1 s1 /\ matches r2 s2.
Proof. inversion 1; subst; eauto. Qed.

Lemma matches_alt_inv r1 r2 s :
  matches (Alt r1 r2) s -> matches r1 s \/ matches r2 s.
Proof. inversion 1; subst; auto. Qed.

Lemma deriv_matches c r s : matches (deriv c r) s <-> matches r (String c s).
Proof.
  revert s. induction r as [| |p|r1 IH1 r2 IH2|r1 IH1 r2 IH2|r IH]; intros s; simpl.
  - split; inversion 1.
  - split; inversion 1.
  - destruct (p c) eqn:E; split; intros H; inversion H; subst.
    + constructor. exact E.
    + constructor.
    + congruence.
  - split.
    + intros H.
      assert (Hcat : forall t, matches (Cat (deriv c r1) r2) t ->
                               matches (Cat r1 r2) (String c t)).
      { intros t Ht. apply matches_cat_inv in Ht as (s1 & s2 & -> & Ha & Hb).
        apply IH1 in Ha. change (String c (s1 +:+ s2)) with (String c s1 +:+ s2).
        constructor; assumption. }
      destruct (nullable r1) eqn:En; [|apply Hcat, H].
      apply matches_alt_inv in H as [H|H]; [apply Hcat, H|].
      apply IH2 in H. change (String c s) with (EmptyString +:+ String c s).
      constructor; [apply nullable_matches, En|assumption].
    + intros H. apply matches_cat_inv in H as (s1 & s2 & Es & Ha & Hb).
      destruct s1 as [|c1 s1].
      * change (String c s = s2) in Es. subst s2.
        apply nullable_matches in Ha. rewrite Ha.
        apply matches_alt_r, IH2, Hb.
      * simpl in Es. injection Es as <- ->.
        apply IH1 in Ha.
        destruct (nullable r1); [apply matches_alt_l|]; constructor; assumption.
  - split; intros H; apply matches_alt_inv in H as [H|H].
    + apply matches_alt_l, IH1; assumption.
    + apply matches_alt_r, IH2; assumption.
    + apply matches_alt_l, IH1; assumption.
    + apply matches_alt_r, IH2; assumption.
  - split.
    + intros H. apply matches_cat_inv in H as (s1 & s2 & -> & Ha & Hb).
      apply IH in Ha. change (String c (s1 +:+ s2)) with (String c s1 +:+ s2).
      constructor; assumption.
    + intros H. apply matches_star_head in H as (s1 & s2 & -> & Ha & Hb).
      constructor; [apply IH, Ha|exact Hb].
Qed.

(** The matcher decides the language. *)
Lemma accepts_matches r s : accepts r s = true <-> matches r s.
Proof.
  revert r. induction s as [|c s IH]; intros r; simpl.
  - apply nullable_matches.
  - rewrite IH. apply deriv_matches.
Qed.

End ReFacts.

(** ** Validators *)

(** A phone number is ten digits, the first of them 6, 7, 8 or 9. *)
Lemma valid_phone_shape v :
  valid_phone v = true ->
  exists c rest,
    Py.strip v = String c rest /\ Py.len (Py.strip v) = 10 /\
    Py.sall Py.is_digit (Py.strip v) = true /\
    (c = "6" \/ c = "7" \/ c = "8" \/ c = "9")%char.
Proof.
  unfold valid_phone. cbv zeta. intros H.
  apply andb_prop in H as [H Hc]. apply andb_prop in H as [Hd Hl].
  destruct (Py.strip v) as [|c rest]; [discriminate|].
  exists c, rest. split; [reflexivity|]. split; [apply Z.eqb_eq, Hl|].
  split; [exact Hd|].
  cbn in Hc. rewrite !orb_true_iff, !Ascii.eqb_eq in Hc.
  intuition congruence.
Qed.

(** ** Integers and their decimal text *)

Section DecimalText.

Ltac digit_step :=
  cbn [NilEmpty.string_of_uint Py.int_body];
  match goal with
  | |- context [Py.is_digit ?c] => change (Py.is_digit c) with true
  end;
  match goal with
  | |- context [Py.digit_val ?c] =>
      let v := eval vm_compute in (Py.digit_val c) in
      change (Py.digit_val c) with v
  end;
  cbv iota.

Lemma int_body_uint_acc d acc :
  Py.int_body (Z.pos acc) true (NilEmpty.string_of_uint d)
  = Some (Z.pos (Pos.of_uint_acc d acc)).
Proof.
  revert acc. induction d as [|d IH|d IH|d IH|d IH|d IH|d IH|d IH|d IH|d IH|d IH];
    intros acc; [reflexivity|..];
    digit_step; cbn [Pos.of_uint_acc]; rewrite <- IH; f_equal; lia.
Qed.

Lemma int_body_uint d b :
  d <> Nil \/ b = true ->
  Py.int_body 0 b (NilEmpty.string_of_uint d) = Some (Z.of_N (Pos.of_uint d)).
Proof.
  revert b. induction d as [|d IH|d IH|d IH|d IH|d IH|d IH|d IH|d IH|d IH|d IH];
    intros b Hb.
  - destruct Hb as [Hb| ->]; [contradiction|reflexivity].
  - digit_step. cbn [Pos.of_uint]. apply IH. auto.
  - digit_step. apply (int_body_uint_acc d 1).
  - digit_step. apply (int_body_uint_acc d 2).
  - digit_step. apply (int_body_uint_acc d 3).
  - digit_step. apply (int_body_uint_acc d 4).
  - digit_step. apply (int_body_uint_acc d 5).
  - digit_step. apply (int_body_uint_acc d 6).
  - digit_step. apply (int_body_uint_acc d 7).
  - digit_step. apply (int_body_uint_acc d 8).
  - digit_step. apply (int_body_uint_acc d 9).
Qed.

Lemma strip_no_blank s : no_blank s = true -> Py.strip s = s.
Proof.
  intros H. unfold Py.strip.
  assert (Hr : Py.rstrip s = s).
  { unfold no_blank in H. induction s as [|c s IH]; [reflexivity|].
    cbn [Py.sall] in H. apply andb_prop in H as [Hc Hs]. cbn [Py.rstrip].
    rewrite (IH Hs). apply negb_true_iff in Hc. rewrite Hc. destruct s; reflexivity. }
  rewrite Hr. destruct s as [|c s]; [reflexivity|].
  unfold no_blank in H. cbn [Py.sall] in H.
  apply andb_prop in H as [Hc _]. apply negb_true_iff in Hc.
  cbn [Py.lstrip]. rewrite Hc. reflexivity.
Qed.

Lemma uint_text_digits d : Py.sall Py.is_digit (NilEmpty.string_of_uint d) = true.
Proof. induction d; cbn [NilEmpty.string_of_uint Py.sall]; auto. Qed.

Lemma digits_no_blank s : Py.sall Py.is_digit s = true -> no_blank s = true.
Proof.
  unfold no_blank. induction s as [|c s IH]; [reflexivity|].
  cbn [Py.sall]. intros H.
  apply andb_prop in H as [Hc Hs]. rewrite (IH Hs), andb_true_r.
  destruct c as [[] [] [] [] [] [] [] []]; vm_compute in Hc |- *; congruence.
Qed.

(** A string of digits reads as an integer without its sign branch. *)
Lemma int_of_digit_text s :
  Py.sall Py.is_digit s = true -> Py.int s = Py.int_body 0 false s.
Proof.
  intros H. unfold Py.int. rewrite (strip_no_blank _ (digits_no_blank _ H)).
  destruct s as [|c s]; [reflexivity|].
  cbn in H. apply andb_prop in H as [Hc _].
  destruct c as [[] [] [] [] [] [] [] []]; vm_compute in Hc; try discriminate;
    reflexivity.
Qed.

(** [int(str(n)) == n] *)
Lemma int_str_int n : Py.int (Py.str_int n) = Some n.
Proof.
  unfold Py.str_int.
  destruct n as [|p|p]; [reflexivity| |];
    cbn [Z.to_int NilZero.string_of_int];
    pose proof (DecimalPos.Unsigned.to_uint_nonnil p) as Hnil;
    assert (Ht : NilZero.string_of_uint (Pos.to_uint p)
                 = NilEmpty.string_of_uint (Pos.to_uint p))
      by (destruct (Pos.to_uint p); [contradiction|reflexivity..]);
    rewrite Ht.
  - rewrite int_of_digit_text by apply uint_text_digits.
    rewrite int_body_uint by auto.
    rewrite DecimalPos.Unsigned.of_to. reflexivity.
  - unfold Py.int.
    rewrite strip_no_blank
      by (unfold no_blank; cbn [Py.sall]; apply digits_no_blank, uint_text_digits).
    cbn [fmap option_fmap option_map]. rewrite int_body_uint by auto.
    rewrite DecimalPos.Unsigned.of_to. reflexivity.
Qed.

End DecimalText.

(** ** Trimming *)

Section Trimming.

Lemma lstrip_head c s :
  Py.is_space c = false -> Py.lstrip (String c s) = String c s.
Proof. intros H. cbn [Py.lstrip]. rewrite H. reflexivity. Qed.

Lemma rstrip_head c s :
  Py.is_space c = false -> exists t, Py.rstrip (String c s) = String c t.
Proof. intros H. cbn [Py.rstrip]. destruct (Py.rstrip s); rewrite ?H; eauto. Qed.

Lemma lstrip_idem s : Py.lstrip (Py.lstrip s) = Py.lstrip s.
Proof.
  induction s as [|c s IH]; [reflexivity|]. cbn [Py.lstrip].
  destruct (Py.is_space c) eqn:E; [exact IH|]. apply lstrip_head, E.
Qed.

Lemma rstrip_idem s : Py.rstrip (Py.rstrip s) = Py.rstrip s.
Proof.
  assert (Hstep : forall c x,
             Py.rstrip (String c x)
             = match Py.rstrip x with
               | EmptyString =>
                   if Py.is_space c then EmptyString else String c EmptyString
               | r' => String c r'
               end) by reflexivity.
  induction s as [|c s IH]; [reflexivity|]. rewrite (Hstep c s).
  destruct (Py.rstrip s) as [|c' t] eqn:E.
  - destruct (Py.is_space c) eqn:Ec; [reflexivity|].
    cbn [Py.rstrip]. rewrite Ec. reflexivity.
  - rewrite Hstep, IH. reflexivity.
Qed.

Lemma rstrip_lstrip s : Py.rstrip (Py.lstrip s) = Py.lstrip (Py.rstrip s).
Proof.
  induction s as [|c s IH]; [reflexivity|].
  destruct (Py.is_space c) eqn:Ec.
  - cbn [Py.lstrip Py.rstrip]. rewrite Ec, IH.
    destruct (Py.rstrip s) as [|c' t]; [reflexivity|].
    cbn [Py.lstrip]. rewrite Ec. reflexivity.
  - rewrite (lstrip_head _ _ Ec).
    destruct (rstrip_head c s Ec) as [t ->]. rewrite (lstrip_head _ _ Ec).
    reflexivity.
Qed.

(** [s.strip().strip() == s.strip()] *)
Lemma strip_idem s : Py.strip (Py.strip s) = Py.strip s.
Proof.
  unfold Py.strip. rewrite rstrip_lstrip, rstrip_idem, lstrip_idem. reflexivity.
Qed.

Lemma rstrip_digits_newline s :
  Py.sall Py.is_digit s = true ->
  Py.rstrip (s +:+ String "010" EmptyString) = s.
Proof.
  induction s as [|c s IH]; [reflexivity|]. cbn [Py.sall]. intros H.
  apply andb_prop in H as [Hc Hs].
  change (String c s +:+ ?t) with (String c (s +:+ t)).
  cbn [Py.rstrip]. rewrite (IH Hs).
  assert (Py.is_space c = false)
    by (destruct c as [[] [] [] [] [] [] [] []]; vm_compute in Hc |- *; congruence).
  destruct s; [rewrite H|]; reflexivity.
Qed.

Lemma strip_keeps_head c s :
  Py.is_space c = false -> exists t, Py.strip (String c s) = String c t.
Proof.
  intros Hc. unfold Py.strip. cbn [Py.rstrip].
  destruct (Py.rstrip s); rewrite ?Hc; cbn [Py.lstrip]; rewrite Hc; eauto.
Qed.

End Trimming.

(** ** Identifiers read back as numbers *)

Section IdentifierText.

Import Re ReFacts.

Ltac norm_append :=
  repeat first
    [ progress change (EmptyString +:+ ?t) with t
    | progress change (String ?c ?s +:+ ?t) with (String c (s +:+ t)) ].

Lemma matches_cls_inv p s :
  matches (Cls p) s -> exists c, s = String c EmptyString /\ p c = true.
Proof. inversion 1; subst; eauto. Qed.

Lemma matches_star_cls p s : matches (Star (Cls p)) s -> Py.sall p s = true.
Proof.
  intros H. remember (Star (Cls p)) as r eqn:Er.
  induction H as [| | | | | |r0 s1 s2 H1 _ H2 IH2]; try discriminate; [reflexivity|].
  injection Er as ->. apply matches_cls_inv in H1 as (c & -> & Hc).
  norm_append. cbn [Py.sall]. rewrite Hc. apply IH2. reflexivity.
Qed.

(** The texts matched by [A\d+] up to [$]: an "A", digits, and perhaps one
    line feed. *)
Lemma id_pattern_text s :
  anchored (Cat (Chr "A") (Plus (Cls Py.is_digit))) s = true ->
  exists ds,
    ds <> EmptyString /\ Py.sall Py.is_digit ds = true /\
    (s = String "A" ds \/ s = String "A" (ds +:+ String "010" EmptyString)).
Proof.
  unfold anchored. intros H. apply accepts_matches in H.
  apply matches_cat_inv in H as (s12 & s3 & -> & H12 & H3).
  apply matches_cat_inv in H12 as (s1 & s2 & -> & H1 & H2).
  apply matches_cls_inv in H1 as (a & -> & Ha). apply Ascii.eqb_eq in Ha. subst a.
  apply matches_cat_inv in H2 as (d1 & d2 & -> & Hd1 & Hd2).
  apply matches_cls_inv in Hd1 as (c & -> & Hc).
  apply matches_star_cls in Hd2.
  exists (String c d2). split; [discriminate|].
  split; [cbn [Py.sall]; rewrite Hc; exact Hd2|].
  norm_append.
  apply matches_alt_inv in H3 as [H3|H3].
  - inversion H3; subst. left. f_equal. f_equal.
    clear. induction d2 as [|a d2 IH]; norm_append; congruence.
  - apply matches_cls_inv in H3 as (n & -> & Hn). apply Ascii.eqb_eq in Hn. subst n.
    right. reflexivity.
Qed.

Lemma int_body_digits s acc b :
  Py.sall Py.is_digit s = true -> s <> EmptyString \/ b = true ->
  is_Some (Py.int_body acc b s).
Proof.
  revert acc b. induction s as [|c s IH]; intros acc b Hs Hb.
  - destruct Hb as [Hb| ->]; [contradiction|]. cbn. eauto.
  - cbn [Py.sall] in Hs. apply andb_prop in Hs as [Hc Hs].
    cbn [Py.int_body]. rewrite Hc. apply IH; auto.
Qed.

Lemma int_digits_newline ds :
  ds <> EmptyString -> Py.sall Py.is_digit ds = true ->
  is_Some (Py.int ds) /\ is_Some (Py.int (ds +:+ String "010" EmptyString)).
Proof.
  intros Hne Hd.
  assert (Hint : is_Some (Py.int ds)).
  { rewrite int_of_digit_text by exact Hd. apply int_body_digits; auto. }
  split; [exact Hint|].
  unfold Py.int in *. unfold Py.strip in *.
  rewrite rstrip_digits_newline by exact Hd.
  change (Py.lstrip (Py.rstrip ds)) with (Py.strip ds) in Hint.
  rewrite (strip_no_blank _ (digits_no_blank _ Hd)) in Hint.
  destruct ds as [|c r]; [contradiction|].
  cbn [Py.sall] in Hd. apply andb_prop in Hd as [Hc _].
  rewrite lstrip_head; [exact Hint|].
  destruct c as [[] [] [] [] [] [] [] []]; vm_compute in Hc |- *; congruence.
Qed.

(** A trimmed value that is a valid identifier has a number after its
    first character. *)
Lemma valid_id_int v :
  Py.strip v = v -> valid_id v = true -> is_Some (Py.int (Py.tail v)).
Proof.
  unfold valid_id. intros -> H.
  apply id_pattern_text in H as (ds & Hne & Hd & [-> | ->]); cbn [Py.tail];
    apply int_digits_newline; assumption.
Qed.

Lemma str_int_not_id n : valid_id (Py.str_int n) = false.
Proof.
  destruct (valid_id (Py.str_int n)) eqn:E; [|reflexivity]. exfalso.
  unfold valid_id in E.
  apply id_pattern_text in E as (ds & _ & _ & H).
  assert (Hhead : forall t, Py.strip (Py.str_int n) <> String "A" t).
  { intros t. unfold Py.str_int.
    destruct n as [|p|p]; [discriminate| |];
      cbn [Z.to_int NilZero.string_of_int];
      pose proof (DecimalPos.Unsigned.to_uint_nonnil p) as Hnil.
    - destruct (Pos.to_uint p) as [|u|u|u|u|u|u|u|u|u|u]; [contradiction|..];
        cbn [NilZero.string_of_uint NilEmpty.string_of_uint];
        match goal with
        | |- Py.strip (String ?c ?s) <> _ =>
            destruct (strip_keeps_head c s eq_refl) as [t' ->]
        end; discriminate.
    - match goal with
      | |- Py.strip (String ?c ?s) <> _ =>
          destruct (strip_keeps_head c s eq_refl) as [t' ->]
      end; discriminate. }
  destruct H as [H|H]; exact (Hhead _ H).
Qed.

End IdentifierText.

(** ** The identifier allocator *)

Section Allocator.

Implicit Types (s u : gset Z) (l : list Z) (rows : option (list string)).

Lemma foldr_max_bound l m :
  foldr max_step None l = Some m -> Forall (fun x => x <= m) l.
Proof.
  revert m. induction l as [|x l IH]; intros m H; [constructor|].
  simpl in H. unfold max_step at 1 in H.
  destruct (foldr max_step None l) as [m'|] eqn:E.
  - injection H as <-. constructor; [lia|].
    eapply Forall_impl; [apply IH; reflexivity|]. intros y Hy. simpl in Hy. lia.
  - injection H as <-. destruct l; [constructor; [lia|constructor]|discriminate].
Qed.

Lemma set_max_bound s m x : set_max s = Some m -> x ∈ s -> x <= m.
Proof.
  intros H Hx. apply foldr_max_bound in H.
  rewrite Forall_forall in H. apply H, elem_of_elements, Hx.
Qed.

Lemma set_max_None s : set_max s = None -> s = ∅.
Proof.
  unfold set_max. intros H. apply leibniz_equiv, elements_empty_inv.
  destruct (elements s); [constructor|discriminate].
Qed.

Lemma set_max_empty : set_max ∅ = None.
Proof. unfold set_max. rewrite elements_empty. reflexivity. Qed.

Lemma first_free_fresh fuel s n : n ∉ s -> first_free (S fuel) s n = Ok n.
Proof. intros H. simpl. destruct (decide (n ∈ s)); [contradiction|reflexivity]. Qed.

(** The allocator always answers, with a number above every number it has
    seen, and records that number. *)
Lemma next_id_spec rows u :
  exists n,
    next_id rows u = Ok (String "A" (Py.str_int n), {[ n ]} ∪ u) /\
    (forall m, m ∈ db_ids rows ∪ u -> m < n) /\
    (db_ids rows ∪ u = ∅ -> n = 101).
Proof.
  unfold next_id.
  destruct (set_max (db_ids rows ∪ u)) as [m|] eqn:E.
  - exists (m + 1). split; [|split].
    + rewrite first_free_fresh; [reflexivity|].
      intros Hin. pose proof (set_max_bound _ _ _ E Hin). lia.
    + intros x Hx. pose proof (set_max_bound _ _ _ E Hx). lia.
    + intros Hemp. rewrite Hemp, set_max_empty in E. discriminate.
  - exists 101. apply set_max_None in E. split; [|split].
    + rewrite first_free_fresh; [reflexivity|]. rewrite E. set_solver.
    + intros x Hx. rewrite E in Hx. set_solver.
    + reflexivity.
Qed.




End Allocator.


(** ** Placeholders *)


Lemma str_in_elem_of v l : str_in v l = true <-> v ∈ l.
Proof.
  unfold str_in. rewrite existsb_exists. split.
  - intros (x & Hx & Heq). apply String.eqb_eq in Heq. subst x.
    apply list_elem_of_In, Hx.
  - intros H. exists v. split; [apply list_elem_of_In, H|apply String.eqb_refl].
Qed.



(** ** Rule 9 of the classifier *)


Section TitleCase.







End TitleCase.



(** ** Decoding the oracle's answer *)







(** ** The numeric split *)

Section NumericSplit.

Lemma insert_sorted_perm x l : Permutation (x :: l) (insert_sorted x l).
Proof.
  induction l as [|y l IH]; simpl; [reflexivity|].
  destruct (x <=? y); [reflexivity|].
  rewrite perm_swap. apply perm_skip, IH.
Qed.

Lemma sorted_perm l : Permutation l (sorted l).
Proof.
  induction l as [|x l IH]; simpl; [reflexivity|].
  rewrite <- insert_sorted_perm. apply perm_skip, IH.
Qed.

Lemma insert_sorted_ascending x l :
  StronglySorted Z.le l -> StronglySorted Z.le (insert_sorted x l).
Proof.
  induction 1 as [|y l Hs IH Hall]; simpl.
  - repeat constructor.
  - destruct (x <=? y) eqn:E.
    + constructor; [constructor; assumption|].
      apply Z.leb_le in E. constructor; [exact E|].
      eapply Forall_impl; [exact Hall|]. intros z Hz. simpl in Hz. lia.
    + constructor; [exact IH|].
      apply Z.leb_gt in E.
      rewrite <- (insert_sorted_perm x l). constructor; [lia|exact Hall].
Qed.

(** [sorted] is a sort: its result is ascending and holds the same values. *)
Lemma sorted_ascending l : StronglySorted Z.le (sorted l).
Proof.
  induction l as [|x l IH]; simpl; [constructor|].
  apply insert_sorted_ascending, IH.
Qed.

Lemma foldl_split_step_nonzero l loan income :
  Forall (fun n => n <> 0) l ->
  (forall n, loan = Some n -> n <> 0) ->
  (forall n, income = Some n -> n <> 0) ->
  foldl split_step (loan, income) l =
    (keep loan (List.find (fun n => n >? 500000) (List.filter not_phone l)),
     keep income (List.find (fun n => n <? 500000) (List.filter not_phone l))).
Proof.
  intros Hl. revert loan income.
  induction Hl as [|x l Hx Hl IH]; intros loan income Hloan Hincome.
  - simpl. destruct loan, income; reflexivity.
  - cbn [foldl List.filter].
    change (not_phone x) with (negb (valid_phone (Py.str_int x))).
    replace (split_step (loan, income) x) with
      (if valid_phone (Py.str_int x) then (loan, income)
       else if (x <? 500000) && negb (Py.truthy income) then (loan, Some x)
       else if (x >? 500000) && negb (Py.truthy loan) then (Some x, income)
       else (loan, income)) by reflexivity.
    destruct (valid_phone (Py.str_int x)); cbn [negb]; [apply IH; assumption|].
    cbn [List.find].
    assert (Ht : forall o, (forall n, o = Some n -> n <> 0) ->
                           Py.truthy o = match o with Some _ => true | None => false end).
    { intros [n|] Hn; [|reflexivity]. simpl.
      specialize (Hn n eq_refl). apply Z.eqb_neq in Hn. rewrite Hn. reflexivity. }
    rewrite (Ht _ Hloan), (Ht _ Hincome).
    destruct (x <? 500000) eqn:Elt, (x >? 500000) eqn:Egt; try lia;
      destruct loan as [a|], income as [b|]; cbn [andb negb keep];
      rewrite IH; try reflexivity; try assumption;
      intros n Hn; injection Hn as <-; exact Hx.
Qed.

(** Where no value is zero, the numeric split is the split of the
    specification. *)
Lemma numeric_split_nonzero nums :
  Forall (fun n => n <> 0) nums -> numeric_split nums = split_by_spec nums.
Proof.
  intros H. unfold numeric_split, split_by_spec.
  rewrite foldl_split_step_nonzero; [reflexivity| |discriminate|discriminate].
  rewrite <- (sorted_perm nums). exact H.
Qed.

Lemma foldl_split_step_bounds l loan income :
  (forall n, loan = Some n -> 500000 < n) ->
  (forall n, income = Some n -> n < 500000) ->
  (forall n, fst (foldl split_step (loan, income) l) = Some n -> 500000 < n) /\
  (forall n, snd (foldl split_step (loan, income) l) = Some n -> n < 500000).
Proof.
  revert loan income. induction l as [|x l IH]; intros loan income Hloan Hincome.
  - simpl. split; assumption.
  - cbn [foldl].
    replace (split_step (loan, income) x) with
      (if valid_phone (Py.str_int x) then (loan, income)
       else if (x <? 500000) && negb (Py.truthy income) then (loan, Some x)
       else if (x >? 500000) && negb (Py.truthy loan) then (Some x, income)
       else (loan, income)) by reflexivity.
    destruct (valid_phone (Py.str_int x)); [apply IH; assumption|].
    destruct (x <? 500000) eqn:Elt, (negb (Py.truthy income)); cbn [andb];
      try (destruct (x >? 500000) eqn:Egt, (negb (Py.truthy loan)); cbn [andb]);
      apply IH; try assumption;
      intros n Hn; injection Hn as <-; lia.
Qed.

(** What the split does guarantee of the values it assigns. *)
Lemma numeric_split_bounds nums loan income :
  numeric_split nums = (loan, income) ->
  (forall n, loan = Some n -> 500000 < n) /\
  (forall n, income = Some n -> n < 500000).
Proof.
  unfold numeric_split. intros H.
  destruct (foldl_split_step_bounds (sorted nums) None None) as [Hl Hi];
    try discriminate.
  rewrite H in Hl, Hi. split; assumption.
Qed.

End NumericSplit.

(** C3: the code at the inputs where it leaves the rule.  The two rows of
    the specification come out as stated, but a zero counts as "not yet
    assigned": in the row "0", "100" the income becomes 100 and not the
    first value below 500000, and in the row "0" no income is set. *)
Theorem numeric_split_skips_zero :
  numeric_split [450000; 600000] = (Some 600000, Some 450000) /\
  numeric_split [500000] = (None, None) /\
  numeric_split [0; 100] = (None, Some 100) /\
  split_by_spec [0; 100] = (None, Some 0) /\
  (forall conv, exists r u,
      repair_row conv (Some []) [Some "0"; Some "100"] blank ∅ = Ok (r, u) /\
      monthly_income r = Some "100") /\
  (forall conv, exists r u,
      repair_row conv (Some []) [Some "0"] blank ∅ = Ok (r, u) /\
      monthly_income r = None).
Proof.
  repeat split; try (vm_compute; reflexivity);
    intros conv; eexists _, _; (split; [vm_compute; reflexivity|reflexivity]).
Qed.

(** C4: the code at inputs where it leaves the ranges.  A lone value 100
    becomes the monthly income, below 25000, and a lone value of eleven
    digits becomes the loan amount, above 10000000; neither passes the
    validator of its field. *)
Theorem repair_assigns_outside_ranges :
  (forall conv, exists r u,
      repair conv (Some []) [blank]
        {| columns := ["Col1"]; data := [[Some "100"]] |} [] ∅
        = Ok ([r], u) /\
      monthly_income r = Some "100") /\
  valid_monthly_income "100" = false /\
  (forall conv, exists r u,
      repair conv (Some []) [blank]
        {| columns := ["Col1"]; data := [[Some "99999999999"]] |} [] ∅
        = Ok ([r], u) /\
      loan_amount r = Some "99999999999") /\
  valid_loan_amount "99999999999" = false.
Proof.
  repeat split; try reflexivity;
    intros conv; eexists _, _; (split; [vm_compute; reflexivity|reflexivity]).
Qed.

(** ** The endpoints and the invalidation pass *)

(** C1: the code at an input where it leaves the state machine.  With the
    column "email" holding "12ab", which is no e-mail address, both
    endpoints hand the cell to [repair] as it is and it survives to the
    preview and to the store, while [invalidate] would have emptied it. *)
Theorem endpoints_skip_invalidation :
  let sheet := {| columns := ["email"]; data := [[Some "12ab"]] |} in
  let mapped := ensure_columns (rename [] <$> columns sheet) <$> data sheet in
  valid_email "12ab" = false /\
  email <$> mapped = [Some "12ab"] /\
  email <$> invalidate mapped = [None] /\
  (forall loads conv,
      exists out,
        validate loads conv empty_store (Json (JObj [])) sheet = Ok out /\
        email <$> preview out = [Some "12ab"]) /\
  (forall loads conv,
      exists out db',
        upload loads conv empty_store (Json (JObj [])) sheet = (Ok out, db') /\
        (email ∘ fields) <$> (loan_applicants db' !! "A101") = Some (Some "12ab")).
Proof.
  repeat split; try reflexivity.
  - intros loads conv. eexists. split; [vm_compute; reflexivity|reflexivity].
  - intros loads conv. eexists _, _. split; [vm_compute; reflexivity|].
    vm_compute. reflexivity.
Qed.

(** ** Records *)

Lemma get_build h f : get f (build h) = h f.
Proof. destruct f; reflexivity. Qed.

Lemma get_set f g v r :
  get g (set f v r) = if decide (g = f) then v else get g r.
Proof. unfold set. apply get_build. Qed.

Lemma assign_first_other k f es r g :
  g <> f -> get g (assign_first k f es r) = get g r.
Proof.
  intros Hne. unfold assign_first. destruct (bucket k es); [reflexivity|].
  rewrite get_set. destruct (decide (g = f)); [contradiction|reflexivity].
Qed.

Lemma assign_number_other n f r g :
  g <> f -> get g (assign_number n f r) = get g r.
Proof.
  intros Hne. unfold assign_number. destruct n as [x|]; [|reflexivity].
  destruct (Py.truthy (Some x)); [|reflexivity].
  rewrite get_set. destruct (decide (g = f)); [contradiction|reflexivity].
Qed.

(** ** The key of a repaired record *)

Lemma classify_id v s :
  classify v = Some (Text Bucket.id s) -> s = v /\ valid_id v = true.
Proof.
  unfold classify.
  repeat match goal with
         | |- context [if ?b then _ else _] => destruct b eqn:?
         end; intros H; try discriminate.
  injection H as <-. auto.
Qed.

Lemma valid_id_not_null v : valid_id v = true -> is_null_str v = false.
Proof.
  unfold valid_id, is_null_str. intros H.
  destruct (str_in (Py.strip v) _) eqn:E; [|reflexivity].
  apply str_in_elem_of in E.
  repeat (apply elem_of_cons in E; destruct E as [E|E];
          [rewrite E in H; vm_compute in H; discriminate|]).
  inversion E.
Qed.

Lemma allocated_not_null n : is_null_str (String "A" (Py.str_int n)) = false.
Proof.
  unfold is_null_str.
  destruct (strip_keeps_head "A" (Py.str_int n) eq_refl) as [t ->].
  reflexivity.
Qed.

(** Whatever [repair] returns for a row, its identifier is set and is no
    placeholder: the key bound by [upsert] is not NULL. *)
Lemma repaired_key conv rows orig_row r u r' u' :
  repair_row conv rows orig_row r u = Ok (r', u') ->
  exists k, applicant_id r' = Some k /\ applicant_id (params r') = Some k.
Proof.
  unfold repair_row. set (es := omap classify _).
  intros H.
  assert (Hkey : exists k, applicant_id r' = Some k /\ is_null_str k = false).
  { destruct (bucket Bucket.id es) as [|v rest] eqn:Eb; cbn [mbind result_bind] in H.
    - destruct (next_id_spec rows u) as (n & Hn & _). rewrite Hn in H.
      cbn [mbind result_bind] in H.
      destruct (int_or_raise _); cbn [mbind result_bind] in H; try discriminate.
      destruct (numeric_split _). injection H as <- _.
      exists (String "A" (Py.str_int n)). split; [|apply allocated_not_null].
      change (applicant_id ?x) with (get ApplicantId x).
      rewrite !assign_number_other, !assign_first_other by discriminate.
      rewrite get_set. reflexivity.
    - destruct (int_or_raise _); cbn [mbind result_bind] in H; try discriminate.
      destruct (numeric_split _). injection H as <- _.
      exists v. split.
      + change (applicant_id ?x) with (get ApplicantId x).
        rewrite !assign_number_other, !assign_first_other by discriminate.
        rewrite get_set. reflexivity.
      + assert (Hin : v ∈ bucket Bucket.id es) by (rewrite Eb; left).
        apply list_elem_of_omap in Hin as (e & He & Hv).
        destruct e as [k s|]; [|discriminate].
        destruct (decide (k = Bucket.id)) as [->|]; [|discriminate].
        injection Hv as ->.
        apply list_elem_of_omap in He as (raw & _ & Hc).
        apply classify_id in Hc as [-> Hid]. apply valid_id_not_null, Hid. }
  destruct Hkey as (k & Hk & Hnull). exists k. split; [exact Hk|].
  unfold params. cbn [build applicant_id]. cbn [get]. rewrite Hk.
  change (null_to_none (Some k) = Some k).
  unfold null_to_none, is_null.
  change (py_str (Some (py_str (Some k)))) with k. rewrite Hnull. reflexivity.
Qed.

(** ** Repair raises nothing *)

Section RepairTotal.

Variable json_loads : string -> option json.
Variable str_int_float : string -> option string.

(** What [str(int(float(val)))] gives is the text of an integer. *)
Hypothesis str_int_float_text :
  forall val t, str_int_float val = Some t -> exists n, t = Py.str_int n.

Lemma raw_vals_shape orig_row v :
  v ∈ raw_vals str_int_float orig_row ->
  Py.strip v = v \/ exists n, v = Py.str_int n.
Proof.
  unfold raw_vals. intros H.
  apply list_elem_of_omap in H as (c & _ & Hc).
  destruct (is_null c); [discriminate|].
  destruct (Py.contains _ _); injection Hc as <-; [|left; apply strip_idem].
  destruct (str_int_float _) as [t|] eqn:E; cbn [default from_option].
  - right. eapply str_int_float_text, E.
  - left. apply strip_idem.
Qed.

Lemma repair_row_total rows orig_row r u :
  exists r' u', repair_row str_int_float rows orig_row r u = Ok (r', u').
Proof.
  unfold repair_row. set (es := omap classify _).
  destruct (bucket Bucket.id es) as [|v rest] eqn:Eb; cbn [mbind result_bind].
  - destruct (next_id_spec rows u) as (n & -> & _). cbn [mbind result_bind].
    unfold int_or_raise. cbn [Py.tail]. rewrite int_str_int.
    cbn [mbind result_bind]. destruct (numeric_split _). eauto.
  - assert (Hin : v ∈ bucket Bucket.id es) by (rewrite Eb; left).
    apply list_elem_of_omap in Hin as (e & He & Hv).
    destruct e as [k s|]; [|discriminate].
    destruct (decide (k = Bucket.id)) as [->|]; [|discriminate].
    injection Hv as ->.
    apply list_elem_of_omap in He as (raw & Hraw & Hc).
    apply classify_id in Hc as [-> Hid].
    apply raw_vals_shape in Hraw as [Hs|[n ->]];
      [|rewrite str_int_not_id in Hid; discriminate].
    destruct (valid_id_int _ Hs Hid) as [n Hn].
    unfold int_or_raise. rewrite Hn. cbn [mbind result_bind].
    destruct (numeric_split _). eauto.
Qed.

Lemma repair_rows_total rows df original u :
  exists df' u', repair_rows str_int_float rows df original u = Ok (df', u').
Proof.
  revert original u. induction df as [|r df IH]; intros [|o original] u;
    cbn [repair_rows]; eauto.
  destruct (repair_row_total rows o r u) as (r' & u1 & ->). cbn [mbind result_bind].
  destruct (IH original u1) as (rest & u2 & ->). cbn [mbind result_bind]. eauto.
Qed.

Lemma register_existing_total df u : exists u', register_existing df u = Ok u'.
Proof.
  unfold register_existing.
  assert (H : exists u0, Ok u = Ok u0 :> result (gset Z)) by eauto.
  revert H. generalize (Ok u). induction df as [|r df IH]; intros acc [u0 ->];
    cbn [foldl]; [eauto|].
  apply IH. cbn [mbind result_bind].
  destruct (applicant_id r) as [aid|]; [|eauto].
  destruct (valid_id (Py.strip aid)) eqn:Hid; [|eauto].
  destruct (valid_id_int _ (strip_idem aid) Hid) as [n Hn].
  unfold int_or_raise. rewrite Hn. cbn [mbind result_bind]. eauto.
Qed.

(** No step of the repair pass raises: with a mapping whose values can be
    hashed, [repair] returns a frame with one row for each row given. *)
Lemma repair_total rows df original_df col_map u :
  existsb (fun kv => unhashable (snd kv)) col_map = false ->
  exists df' u',
    repair str_int_float rows df original_df col_map u = Ok (df', u').
Proof.
  intros Hh. unfold repair, field_to_excel. rewrite Hh. cbn [mbind result_bind].
  destruct (register_existing_total df u) as [u1 ->]. cbn [mbind result_bind].
  apply repair_rows_total.
Qed.

(** With the store reachable and a usable mapping from the oracle,
    [validate] answers. *)
Lemma validate_answers db resp original_df mp :
  reachable db = true ->
  call_llm json_loads resp = Ok mp ->
  existsb (fun kv => unhashable (snd kv)) mp = false ->
  exists out, validate json_loads str_int_float db resp original_df = Ok out.
Proof.
  intros Hup Hmp Hh. unfold validate, ingest, create_table.
  rewrite Hup. cbn [mbind result_bind]. rewrite Hmp. cbn [mbind result_bind].
  match goal with
  | |- context [repair ?c ?rw ?d ?o ?m ?u] =>
      destruct (repair_total rw d o m u Hh) as (df' & u' & ->)
  end.
  cbn [mbind result_bind]. eauto.
Qed.

End RepairTotal.

(** ** Upsert *)

(** C8, as the specification words it, fails: the record A101 is stored
    when it is persisted alone, but when the record after it in the batch
    is refused, the call raises and A101 is not in the store. *)
Lemma upsert_failure_undoes_earlier_rows :
  let r1 := set ApplicantId (Some "A101") blank in
  let r2 := set ApplicantId (Some "A102") blank in
  is_Some (loan_applicants (snd (upsert (refusing "A102") [r1])) !! "A101") /\
  fst (upsert (refusing "A102") [r1; r2]) = Raise DBAPIError /\
  loan_applicants (snd (upsert (refusing "A102") [r1; r2])) !! "A101" = None.
Proof. repeat split. vm_compute. eexists. reflexivity. Qed.

Lemma upsert_rows_refused db df t ins upd :
  Exists (fun r => rejects db (params r) = true) df ->
  exists e, upsert_rows db df t ins upd = Raise e.
Proof.
  intros H. revert t ins upd.
  induction H as [r df Hr|r df _ IH]; intros t ins upd;
    cbn [upsert_rows]; cbv zeta.
  - rewrite Hr. eauto.
  - destruct (rejects db (params r)); [eauto|].
    destruct (applicant_id (params r)) as [k|]; [|eauto].
    destruct (bool_decide (is_Some (t !! k))); apply IH.
Qed.

(** C8, amended.  [upsert] runs the whole batch in one transaction: when
    the server refuses the statement of any record, the exception reaches
    the caller and the store is left as it was before the call, the rows
    written earlier in the batch included. *)
Theorem upsert_single_transaction db df :
  Exists (fun r => rejects db (params r) = true) df ->
  exists e, upsert db df = (Raise e, db).
Proof.
  intros H. unfold upsert. destruct (reachable db); [|eauto].
  destruct (upsert_rows_refused db df (loan_applicants db) 0 0 H) as [e ->].
  eauto.
Qed.

Lemma upsert_single_transaction_witness :
  exists e,
    upsert (refusing "A102")
      [set ApplicantId (Some "A101") blank; set ApplicantId (Some "A102") blank]
    = (Raise e, refusing "A102").
Proof.
  apply upsert_single_transaction.
  apply Exists_cons_tl, Exists_cons_hd. reflexivity.
Defined.

(** C9.  Persisting two records with the same, fresh key one after the
    other, the same record twice in particular, counts one insertion and
    then one update; the stored row then holds the values of the second
    record, field by field, a placeholder being stored as NULL; it keeps
    the creation time of the insertion, and no other row has changed. *)
Theorem upsert_twice db (r1 r2 : record) (k : string) :
  reachable db = true ->
  applicant_id (params r1) = Some k ->
  applicant_id (params r2) = Some k ->
  loan_applicants db !! k = None ->
  rejects db (params r1) = false ->
  rejects db (params r2) = false ->
  exists db1 db2,
    upsert db [r1] = (Ok (1, 0), db1) /\
    upsert db1 [r2] = (Ok (0, 1), db2) /\
    loan_applicants db2 !! k
      = Some {| fields := params r2; created_at := now db |} /\
    (forall f, get f (params r2) = if is_null (get f r2) then None else get f r2) /\
    (forall k', k' <> k -> loan_applicants db2 !! k' = loan_applicants db !! k').
Proof.
  intros Hup Hk1 Hk2 Hfresh Hok1 Hok2.
  eexists _, _. split; [|split; [|split; [|split]]].
  - unfold upsert. rewrite Hup. cbn [upsert_rows]. cbv zeta.
    rewrite Hok1, Hk1, Hfresh.
    rewrite bool_decide_eq_false_2 by (intros [? ?]; discriminate).
    reflexivity.
  - unfold upsert. cbn [with_table reachable loan_applicants].
    rewrite Hup. cbn [upsert_rows]. cbv zeta.
    cbn [with_table rejects now]. rewrite Hok2, Hk2.
    rewrite lookup_insert_eq.
    rewrite bool_decide_eq_true_2 by eauto.
    reflexivity.
  - cbn [with_table loan_applicants].
    rewrite lookup_alter_eq, lookup_insert_eq. reflexivity.
  - intros f. unfold params. rewrite get_build. reflexivity.
  - intros k' Hne. cbn [with_table loan_applicants].
    rewrite lookup_alter_ne, lookup_insert_ne by congruence. reflexivity.
Qed.

Lemma upsert_twice_witness :
  let r := set ApplicantId (Some "A101") (set Email (Some "john@x.com") blank) in
  exists db1 db2,
    upsert empty_store [r] = (Ok (1, 0), db1) /\
    upsert db1 [r] = (Ok (0, 1), db2) /\
    loan_applicants db2 !! "A101"
      = Some {| fields := params r; created_at := now empty_store |} /\
    (forall f, get f (params r) = if is_null (get f r) then None else get f r) /\
    (forall k', k' <> "A101" ->
                loan_applicants db2 !! k' = loan_applicants empty_store !! k').
Proof.
  apply upsert_twice; reflexivity.
Defined.

(** ** The preview *)

Section Preview.

Variable json_loads : string -> option json.
Variable str_int_float : string -> option string.

Lemma bind_returns {A B : Type} (m : result A) (k : A -> result B) :
  m <> Diverge -> (forall a, k a <> Diverge) -> m ≫= k <> Diverge.
Proof. destruct m; cbn; [auto|discriminate|contradiction]. Qed.

Lemma repair_row_returns rows orig_row r u :
  repair_row str_int_float rows orig_row r u <> Diverge.
Proof.
  unfold repair_row.
  destruct (bucket Bucket.id _) as [|v ?]; cbn [mbind result_bind].
  - destruct (next_id_spec rows u) as (n & -> & _). cbn [mbind result_bind].
    unfold int_or_raise. destruct (Py.int _); cbn [mbind result_bind];
      try discriminate.
    destruct (numeric_split _). discriminate.
  - unfold int_or_raise. destruct (Py.int _); cbn [mbind result_bind];
      try discriminate.
    destruct (numeric_split _). discriminate.
Qed.

Lemma repair_rows_returns rows df original u :
  repair_rows str_int_float rows df original u <> Diverge.
Proof.
  revert original u. induction df as [|r df IH]; intros [|o original] u;
    cbn [repair_rows]; try discriminate.
  pose proof (repair_row_returns rows o r u) as Hrow.
  destruct (repair_row _ _ _ _ _) as [[r' u1]| |]; cbn [mbind result_bind];
    try discriminate; try contradiction.
  specialize (IH original u1).
  destruct (repair_rows _ _ _ _ _) as [[rest u2]| |]; cbn [mbind result_bind];
    try discriminate; try contradiction.
Qed.

Lemma repair_rows_length rows df original u df' u' :
  repair_rows str_int_float rows df original u = Ok (df', u') ->
  length df' = Nat.min (length df) (length original).
Proof.
  revert original u df' u'. induction df as [|r df IH];
    intros [|o original] u df' u'; cbn [repair_rows]; intros H;
    try (injection H as <- <-; reflexivity).
  destruct (repair_row _ _ _ _ _) as [[r' u1]| |]; cbn [mbind result_bind] in H;
    try discriminate.
  destruct (repair_rows _ _ df original u1) as [[rest u2]| |] eqn:E;
    cbn [mbind result_bind] in H; try discriminate.
  injection H as <- <-. cbn [length Nat.min]. f_equal. eapply IH, E.
Qed.

Lemma register_existing_returns df u : register_existing df u <> Diverge.
Proof.
  unfold register_existing.
  assert (H : Ok u <> (Diverge : result (gset Z))) by discriminate.
  revert H. generalize (Ok u). induction df as [|r df IH]; intros acc Hacc;
    cbn [foldl]; [exact Hacc|].
  apply IH. destruct acc as [u0| |]; cbn [mbind result_bind];
    try discriminate; try contradiction.
  destruct (applicant_id r) as [aid|]; try discriminate.
  destruct (valid_id _); try discriminate.
  unfold int_or_raise. destruct (Py.int _); cbn [mbind result_bind]; discriminate.
Qed.

Lemma call_llm_returns resp : call_llm json_loads resp <> Diverge.
Proof.
  assert (Hin : forall k raw, py_in k raw <> Diverge)
    by (intros k []; discriminate).
  assert (Hget : forall raw k, py_getitem raw k <> Diverge)
    by (intros [] k; try discriminate; cbn; destruct (dict_get k _); discriminate).
  destruct resp as [| |raw]; cbn [call_llm]; try discriminate.
  unfold decode_mapping.
  apply bind_returns.
  - apply bind_returns; [apply Hin|]. intros [|]; [|discriminate].
    apply bind_returns; [apply Hget|]. intros [| | | | |d]; try discriminate.
    destruct (dict_has "mapping" d); [discriminate|].
    destruct (dict_has "result" d); discriminate.
  - intros mp. apply bind_returns; [|discriminate].
    apply bind_returns; [apply Hin|]. intros [|]; [apply Hget|discriminate].
Qed.

Lemma ingest_returns db resp original_df :
  ingest json_loads str_int_float db resp original_df <> Diverge.
Proof.
  unfold ingest, create_table.
  destruct (reachable db); cbn [mbind result_bind]; try discriminate.
  pose proof (call_llm_returns resp) as Hllm.
  destruct (call_llm json_loads resp) as [mp| |]; cbn [mbind result_bind];
    try discriminate; try contradiction.
  unfold repair, field_to_excel.
  destruct (existsb _ mp); cbn [mbind result_bind]; try discriminate.
  match goal with |- context [register_existing ?d ?u] =>
    pose proof (register_existing_returns d u) as Hreg;
    destruct (register_existing d u) as [u1| |]
  end; cbn [mbind result_bind]; try discriminate; try contradiction.
  match goal with |- context [repair_rows ?c ?rw ?d ?o ?u] =>
    pose proof (repair_rows_returns rw d o u) as Hrows;
    destruct (repair_rows c rw d o u) as [[df u2]| |]
  end; cbn [mbind result_bind]; try discriminate; try contradiction.
Qed.

Lemma ingest_length db resp original_df mp df :
  ingest json_loads str_int_float db resp original_df = Ok (mp, df) ->
  length df = length (data original_df).
Proof.
  unfold ingest, create_table.
  destruct (reachable db); cbn [mbind result_bind]; try discriminate.
  destruct (call_llm json_loads resp) as [mp'| |]; cbn [mbind result_bind];
    try discriminate.
  unfold repair, field_to_excel.
  destruct (existsb _ mp'); cbn [mbind result_bind]; try discriminate.
  destruct (register_existing _ _) as [u1| |]; cbn [mbind result_bind];
    try discriminate.
  destruct (repair_rows _ _ _ _ _) as [[df' u2]| |] eqn:E;
    cbn [mbind result_bind]; try discriminate.
  intros H. injection H as <- <-.
  apply repair_rows_length in E. rewrite E, length_fmap. lia.
Qed.

End Preview.

(** C10.  [validate] always comes back, and when it answers, all rows of
    the sheet have been repaired and the preview holds the first twenty of
    them, or all of them when there are fewer, with empty cells shown as
    empty strings. *)
Theorem validate_preview_first_20 loads conv db resp (sheet : frame) :
  validate loads conv db resp sheet <> Diverge /\
  forall out,
    validate loads conv db resp sheet = Ok out ->
    exists df,
      ingest loads conv db resp sheet = Ok (v_mapping out, df) /\
      length df = length (data sheet) /\
      preview out = fillna <$> take 20 df /\
      length (preview out) = Nat.min 20 (length (data sheet)) /\
      (length (preview out) <= 20)%nat.
Proof.
  unfold validate.
  pose proof (ingest_returns loads conv db resp sheet) as Hret.
  destruct (ingest loads conv db resp sheet) as [[mp df]| |] eqn:E;
    cbn [mbind result_bind]; try contradiction.
  - split; [discriminate|]. intros out H. injection H as <-.
    exists df. cbn [v_mapping preview].
    pose proof (ingest_length _ _ _ _ _ _ _ E) as Hlen.
    rewrite length_fmap, length_take, Hlen.
    repeat split; try reflexivity; lia.
  - split; [discriminate|]. intros out H. discriminate.
Qed.

Lemma validate_preview_first_20_witness :
  exists out,
    validate (fun _ => None) (fun _ => None) empty_store (Json (JObj []))
      {| columns := ["Col1"]; data := replicate 21 [Some "john smith"] |} = Ok out /\
    length (preview out) = 20%nat.
Proof.
  eexists. split; [vm_compute; reflexivity|].
  edestruct (proj2 (validate_preview_first_20 (fun _ => None) (fun _ => None)
                      empty_store (Json (JObj []))
                      {| columns := ["Col1"];
                         data := replicate 21 [Some "john smith"] |}))
    as (df & _ & _ & _ & Hlen & _); [vm_compute; reflexivity|].
  exact Hlen.
Defined.

(** * Further properties of the code *)

(** A fact about one character, settled on each of the 256. *)
Ltac by_char c :=
  destruct c as [[] [] [] [] [] [] [] []]; vm_compute; intros; congruence.

(** ** Validators and blanks *)

Lemma field_validators_strip v :
  Forall (fun fv : field * (string -> bool) => snd fv (Py.strip v) = snd fv v)
         FIELD_VALIDATORS.
Proof.
  unfold FIELD_VALIDATORS.
  repeat constructor; cbn [snd];
    unfold valid_id, valid_name, valid_phone, valid_email, valid_aadhaar,
      valid_pan, valid_loan_amount, valid_monthly_income;
    rewrite !strip_idem; reflexivity.
Qed.

(** X1.  Every validator of FIELD_VALIDATORS, and [is_null], gives the same
    verdict on a value and on the value with its surrounding blanks taken
    off. *)
Theorem validators_ignore_padding (v : string) :
  Forall (fun fv : field * (string -> bool) => snd fv (Py.strip v) = snd fv v)
         FIELD_VALIDATORS /\
  is_null (Some (Py.strip v)) = is_null (Some v).
Proof.
  split; [apply field_validators_strip|].
  change (is_null_str (Py.strip v) = is_null_str v).
  unfold is_null_str. rewrite strip_idem. reflexivity.
Qed.

(** X2.  A placeholder passes no validator of FIELD_VALIDATORS. *)
Theorem placeholders_fail_validators (v : string) :
  is_null_str v = true ->
  Forall (fun fv : field * (string -> bool) => snd fv v = false) FIELD_VALIDATORS.
Proof.
  intros H. pose proof (field_validators_strip v) as Hs.
  unfold is_null_str in H. apply str_in_elem_of in H.
  assert (Hc : Forall (fun fv : field * (string -> bool) =>
                         snd fv (Py.strip v) = false) FIELD_VALIDATORS).
  { repeat (apply elem_of_cons in H; destruct H as [->|H];
            [repeat constructor|]).
    inversion H. }
  rewrite Forall_forall in Hs, Hc |- *.
  intros fv Hfv. rewrite <- (Hs fv Hfv). apply Hc, Hfv.
Qed.

Lemma placeholders_fail_validators_witness :
  Forall (fun fv : field * (string -> bool) => snd fv " None " = false)
         FIELD_VALIDATORS.
Proof. apply placeholders_fail_validators. reflexivity. Defined.

(** ** The shapes the validators accept *)

Section Shapes.

Import Re ReFacts.

Lemma matches_sall_star p s : Py.sall p s = true -> matches (Star (Cls p)) s.
Proof.
  induction s as [|c s IH]; cbn [Py.sall]; intros H; [constructor|].
  apply andb_prop in H as [Hc Hs].
  change (String c s) with (String c EmptyString +:+ s).
  constructor; [constructor; exact Hc|apply IH, Hs].
Qed.

Lemma append_nil_r s : s +:+ EmptyString = s.
Proof.
  induction s as [|c s IH]; [reflexivity|].
  change (String c s +:+ EmptyString) with (String c (s +:+ EmptyString)).
  rewrite IH. reflexivity.
Qed.

Lemma append_length s t :
  String.length (s +:+ t) = (String.length s + String.length t)%nat.
Proof.
  induction s as [|c s IH]; [reflexivity|].
  change (String c s +:+ t) with (String c (s +:+ t)).
  cbn [String.length]. rewrite IH. reflexivity.
Qed.

Lemma id_shape_text s :
  id_shape s = true <->
  exists ds, s = String "A" ds /\ ds <> EmptyString /\ Py.sall Py.is_digit ds = true.
Proof.
  split.
  - destruct s as [|c ds]; [discriminate|]. intros H.
    assert (c = "A"%char) as ->.
    { destruct c as [[] [] [] [] [] [] [] []]; try discriminate H; reflexivity. }
    cbn in H. exists ds. split; [reflexivity|].
    destruct ds; [discriminate|]. split; [discriminate|exact H].
  - intros (ds & -> & Hne & Hd). cbn. destruct ds; [contradiction|exact Hd].
Qed.

Lemma id_pattern_accepts ds :
  ds <> EmptyString -> Py.sall Py.is_digit ds = true ->
  anchored (Cat (Chr "A") (Plus (Cls Py.is_digit))) (String "A" ds) = true.
Proof.
  intros Hne Hd. unfold anchored. apply accepts_matches.
  destruct ds as [|c ds]; [contradiction|].
  cbn [Py.sall] in Hd. apply andb_prop in Hd as [Hc Hs].
  replace (String "A" (String c ds))
    with ((String "A" EmptyString +:+ (String c EmptyString +:+ ds)) +:+ EmptyString)
    by (rewrite append_nil_r; reflexivity).
  constructor; [|apply matches_alt_l; constructor].
  constructor; [constructor; reflexivity|].
  constructor; [constructor; exact Hc|apply matches_sall_star, Hs].
Qed.

Lemma valid_id_shape_eq (v : string) : valid_id v = id_shape (Py.strip v).
Proof.
  unfold valid_id. pose proof (strip_idem v) as Hidem.
  set (t := Py.strip v) in *. clearbody t.
  destruct (id_shape t) eqn:Es.
  - apply id_shape_text in Es as (ds & -> & Hne & Hd).
    apply id_pattern_accepts; assumption.
  - destruct (anchored _ t) eqn:Ea; [|reflexivity]. exfalso.
    apply id_pattern_text in Ea as (ds & Hne & Hd & [-> | ->]).
    + assert (id_shape (String "A" ds) = true)
        by (apply id_shape_text; eauto).
      congruence.
    + unfold Py.strip in Hidem. cbn [Py.rstrip] in Hidem.
      rewrite (rstrip_digits_newline _ Hd) in Hidem.
      destruct ds as [|c ds]; [contradiction|].
      cbn [Py.lstrip] in Hidem. change (Py.is_space "A") with false in Hidem.
      cbv iota in Hidem. injection Hidem as Hidem.
      apply (f_equal String.length) in Hidem.
      rewrite append_length in Hidem. cbn in Hidem. lia.
Qed.

End Shapes.


(** ** The five format rules exclude each other *)

Section Disjoint.

Import Re ReFacts.

Lemma digit_not_at c : Py.is_digit c = true -> is_at c = false.
Proof. unfold is_at. by_char c. Qed.

Lemma digit_not_upper c : Py.is_digit c = true -> Py.is_upper c = false.
Proof. by_char c. Qed.

Lemma upper_char_digit c : Py.is_digit c = true -> Py.upper_char c = c.
Proof. by_char c. Qed.

Lemma upper_char_at c : is_at (Py.upper_char c) = is_at c.
Proof. unfold is_at. by_char c. Qed.

Lemma pan_char_not_at c : pan_char c = true -> is_at c = false.
Proof. unfold pan_char, is_at. by_char c. Qed.

Lemma sany_append p s t : Py.sany p (s +:+ t) = Py.sany p s || Py.sany p t.
Proof.
  induction s as [|c s IH]; [reflexivity|].
  change (String c s +:+ t) with (String c (s +:+ t)).
  cbn [Py.sany]. rewrite IH, orb_assoc. reflexivity.
Qed.

Lemma sall_append p s t : Py.sall p (s +:+ t) = Py.sall p s && Py.sall p t.
Proof.
  induction s as [|c s IH]; [reflexivity|].
  change (String c s +:+ t) with (String c (s +:+ t)).
  cbn [Py.sall]. rewrite IH, andb_assoc. reflexivity.
Qed.

Lemma sall_impl (p q : ascii -> bool) s :
  (forall c, p c = true -> q c = true) -> Py.sall p s = true -> Py.sall q s = true.
Proof.
  intros Hpq. induction s as [|c s IH]; [reflexivity|]. cbn [Py.sall].
  intros H. apply andb_prop in H as [Hc Hs]. rewrite (Hpq _ Hc), (IH Hs). reflexivity.
Qed.

Lemma sall_not_sany (p q : ascii -> bool) s :
  (forall c, p c = true -> q c = false) -> Py.sall p s = true -> Py.sany q s = false.
Proof.
  intros Hpq. induction s as [|c s IH]; [reflexivity|]. cbn [Py.sall Py.sany].
  intros H. apply andb_prop in H as [Hc Hs]. rewrite (Hpq _ Hc), (IH Hs). reflexivity.
Qed.

Lemma sany_at_upper s : Py.sany is_at (Py.upper s) = Py.sany is_at s.
Proof.
  induction s as [|c s IH]; [reflexivity|].
  cbn [Py.upper Py.smap Py.sany]. fold (Py.upper s).
  rewrite upper_char_at, IH. reflexivity.
Qed.

Lemma upper_digits s : Py.sall Py.is_digit s = true -> Py.upper s = s.
Proof.
  induction s as [|c s IH]; [reflexivity|]. cbn [Py.sall]. intros H.
  apply andb_prop in H as [Hc Hs].
  cbn [Py.upper Py.smap]. fold (Py.upper s).
  rewrite (upper_char_digit _ Hc), (IH Hs). reflexivity.
Qed.

Lemma matches_rep_cls n p s :
  matches (Rep n (Cls p)) s -> String.length s = n /\ Py.sall p s = true.
Proof.
  revert s. induction n as [|n IH]; intros s H; cbn [Rep] in H.
  - inversion H; subst. split; reflexivity.
  - apply matches_cat_inv in H as (s1 & s2 & -> & H1 & H2).
    apply matches_cls_inv in H1 as (c & -> & Hc).
    apply IH in H2 as [Hl Hs].
    change (String c EmptyString +:+ s2) with (String c s2).
    cbn [String.length Py.sall]. rewrite Hl, Hc, Hs. split; reflexivity.
Qed.

(** What the e-mail pattern needs: an "@". *)
Lemma valid_email_at v : valid_email v = true -> Py.sany is_at (Py.strip v) = true.
Proof.
  unfold valid_email, anchored. intros H. apply accepts_matches in H.
  apply matches_cat_inv in H as (s & se & -> & H & _).
  apply matches_cat_inv in H as (s1 & s2 & -> & _ & H).
  apply matches_cat_inv in H as (a & s3 & -> & Ha & _).
  apply matches_cls_inv in Ha as (c & -> & Hc).
  rewrite !sany_append. cbn [Py.sany]. fold is_at in Hc. rewrite Hc.
  rewrite !orb_true_r. reflexivity.
Qed.

(** What the PAN pattern gives: two leading capitals, and only capitals,
    digits and perhaps a final line feed. *)
Lemma valid_pan_text v :
  valid_pan v = true ->
  exists c1 c2 rest,
    Py.upper (Py.strip v) = String c1 (String c2 rest) /\
    Py.is_upper c1 = true /\ Py.is_upper c2 = true /\
    Py.sall pan_char (Py.upper (Py.strip v)) = true.
Proof.
  unfold valid_pan, anchored. intros H. apply accepts_matches in H.
  apply matches_cat_inv in H as (s & se & -> & H & Hse).
  apply matches_cat_inv in H as (s5 & s' & -> & H5 & H).
  apply matches_cat_inv in H as (s4 & s1 & -> & H4 & H1).
  apply matches_rep_cls in H5 as [L5 A5]. apply matches_rep_cls in H4 as [L4 A4].
  apply matches_cls_inv in H1 as (c & -> & Hc).
  assert (Hall : Py.sall pan_char ((s5 +:+ s4 +:+ String c EmptyString) +:+ se) = true).
  { rewrite !sall_append.
    rewrite (sall_impl Py.is_upper pan_char s5), (sall_impl Py.is_digit pan_char s4);
      try assumption;
      try (intros a Ha; unfold pan_char; rewrite Ha, ?orb_true_r; reflexivity).
    cbn [Py.sall andb]. unfold pan_char at 1. rewrite Hc. cbn [orb andb].
    apply matches_alt_inv in Hse as [Hse|Hse].
    - inversion Hse; subst. reflexivity.
    - apply matches_cls_inv in Hse as (n & -> & Hn). apply Ascii.eqb_eq in Hn.
      subst n. reflexivity. }
  destruct s5 as [|c1 [|c2 s5]]; try discriminate L5.
  cbn [Py.sall] in A5. apply andb_prop in A5 as [U1 A5].
  apply andb_prop in A5 as [U2 _].
  eexists c1, c2, _. split; [reflexivity|]. repeat split; assumption.
Qed.

Lemma digits_text v :
  valid_aadhaar v = true \/ valid_phone v = true ->
  exists c rest, Py.strip v = String c rest /\ Py.sall Py.is_digit (Py.strip v) = true.
Proof.
  unfold valid_aadhaar, valid_phone. cbv zeta.
  intros [H|H]; repeat (apply andb_prop in H as [H ?]);
    (destruct (Py.strip v) as [|c rest]; [discriminate|]); eauto.
Qed.

Lemma id_not_digits v :
  valid_id v = true -> valid_aadhaar v = true \/ valid_phone v = true -> False.
Proof.
  rewrite valid_id_shape_eq. intros Hid Hd.
  apply id_shape_text in Hid as (ds & E & _).
  apply digits_text in Hd as (c & rest & _ & Hall).
  rewrite E in Hall. discriminate.
Qed.

Lemma id_not_email v : valid_id v = true -> valid_email v = true -> False.
Proof.
  rewrite valid_id_shape_eq. intros Hid He.
  apply id_shape_text in Hid as (ds & E & _ & Hd).
  apply valid_email_at in He. rewrite E in He. cbn [Py.sany] in He.
  rewrite (sall_not_sany _ _ _ digit_not_at Hd) in He. discriminate.
Qed.

Lemma id_not_pan v : valid_id v = true -> valid_pan v = true -> False.
Proof.
  rewrite valid_id_shape_eq. intros Hid Hp.
  apply id_shape_text in Hid as (ds & E & Hne & Hd).
  apply valid_pan_text in Hp as (c1 & c2 & rest & Eu & _ & U2 & _).
  rewrite E in Eu. destruct ds as [|d ds]; [contradiction|].
  cbn [Py.sall] in Hd. apply andb_prop in Hd as [Hd _].
  cbn [Py.upper Py.smap] in Eu. injection Eu as _ E2 _.
  rewrite (upper_char_digit _ Hd) in E2. subst c2.
  rewrite (digit_not_upper _ Hd) in U2. discriminate.
Qed.

Lemma email_not_pan v : valid_email v = true -> valid_pan v = true -> False.
Proof.
  intros He Hp. apply valid_email_at in He.
  apply valid_pan_text in Hp as (_ & _ & _ & _ & _ & _ & Hall).
  rewrite <- sany_at_upper in He.
  rewrite (sall_not_sany _ _ _ pan_char_not_at Hall) in He. discriminate.
Qed.

Lemma email_not_digits v :
  valid_email v = true -> valid_aadhaar v = true \/ valid_phone v = true -> False.
Proof.
  intros He Hd. apply valid_email_at in He.
  apply digits_text in Hd as (_ & _ & _ & Hall).
  rewrite (sall_not_sany _ _ _ digit_not_at Hall) in He. discriminate.
Qed.

Lemma pan_not_digits v :
  valid_pan v = true -> valid_aadhaar v = true \/ valid_phone v = true -> False.
Proof.
  intros Hp Hd. apply valid_pan_text in Hp as (c1 & c2 & rest & Eu & U1 & _).
  apply digits_text in Hd as (c & r & E & Hall).
  rewrite (upper_digits _ Hall), E in Eu. injection Eu as -> _.
  rewrite E in Hall. cbn [Py.sall] in Hall. apply andb_prop in Hall as [Hc _].
  rewrite (digit_not_upper _ Hc) in U1. discriminate.
Qed.

Lemma aadhaar_not_phone v : valid_aadhaar v = true -> valid_phone v = true -> False.
Proof.
  unfold valid_aadhaar, valid_phone. cbv zeta. intros Ha Hp.
  apply andb_prop in Ha as [_ Ha]. apply andb_prop in Hp as [Hp _].
  apply andb_prop in Hp as [_ Hp]. lia.
Qed.

End Disjoint.

(** X4.  No value passes two of the five format validators: identifier,
    e-mail address, PAN, Aadhaar number and phone number have shapes that
    exclude each other, so the order of the first five rules of the
    classifier does not matter. *)
Theorem format_validators_exclusive (v : string) :
  (count_true [valid_id v; valid_email v; valid_pan v; valid_aadhaar v;
               valid_phone v] <= 1)%nat.
Proof.
  pose proof (id_not_email v). pose proof (id_not_pan v).
  pose proof (id_not_digits v). pose proof (email_not_pan v).
  pose proof (email_not_digits v). pose proof (pan_not_digits v).
  pose proof (aadhaar_not_phone v).
  destruct (valid_id v), (valid_email v), (valid_pan v), (valid_aadhaar v),
    (valid_phone v); cbn; try lia; exfalso; auto.
Qed.

(** ** Letter case *)

Section LetterCase.

Lemma upper_char_space c : Py.is_space (Py.upper_char c) = Py.is_space c.
Proof. by_char c. Qed.

Lemma lower_char_space c : Py.is_space (Py.lower_char c) = Py.is_space c.
Proof. by_char c. Qed.

Lemma upper_upper_char c : Py.upper_char (Py.upper_char c) = Py.upper_char c.
Proof. by_char c. Qed.

Lemma upper_lower_char c : Py.upper_char (Py.lower_char c) = Py.upper_char c.
Proof. by_char c. Qed.

Lemma smap_smap f g s : Py.smap f (Py.smap g s) = Py.smap (fun c => f (g c)) s.
Proof. induction s as [|c s IH]; cbn [Py.smap]; [|rewrite IH]; reflexivity. Qed.

Lemma smap_ext f g s : (forall c, f c = g c) -> Py.smap f s = Py.smap g s.
Proof.
  intros H. induction s as [|c s IH]; cbn [Py.smap]; [|rewrite H, IH]; reflexivity.
Qed.

(** Trimming commutes with a change of letters that keeps blanks blank. *)
Lemma strip_smap f s :
  (forall c, Py.is_space (f c) = Py.is_space c) ->
  Py.strip (Py.smap f s) = Py.smap f (Py.strip s).
Proof.
  intros Hf. unfold Py.strip.
  assert (Hl : forall t, Py.lstrip (Py.smap f t) = Py.smap f (Py.lstrip t)).
  { induction t as [|c t IH]; [reflexivity|].
    cbn [Py.smap Py.lstrip]. rewrite Hf. destruct (Py.is_space c); [exact IH|reflexivity]. }
  assert (Hr : forall t, Py.rstrip (Py.smap f t) = Py.smap f (Py.rstrip t)).
  { induction t as [|c t IH]; [reflexivity|].
    cbn [Py.smap Py.rstrip]. rewrite IH, Hf.
    destruct (Py.rstrip t); cbn [Py.smap]; [destruct (Py.is_space c)|]; reflexivity. }
  rewrite Hr, Hl. reflexivity.
Qed.

End LetterCase.

Lemma valid_pan_case (v : string) :
  valid_pan (Py.upper v) = valid_pan v /\ valid_pan (Py.lower v) = valid_pan v.
Proof.
  unfold valid_pan, Py.upper, Py.lower.
  rewrite !strip_smap by (apply upper_char_space || apply lower_char_space).
  rewrite !smap_smap.
  rewrite (smap_ext _ Py.upper_char (Py.strip v)) by apply upper_upper_char.
  split; [reflexivity|].
  rewrite (smap_ext _ Py.upper_char (Py.strip v)) by apply upper_lower_char.
  reflexivity.
Qed.


(** ** What the classifier puts in the buckets *)

Section Buckets.

Lemma title_char_digit c b :
  Py.is_alpha c = true ->
  Py.is_digit (if b : bool then Py.lower_char c else Py.upper_char c) = false.
Proof. destruct b; by_char c. Qed.

Lemma alpha_not_digit c : Py.is_alpha c = true -> Py.is_digit c = false.
Proof. by_char c. Qed.

Lemma title_go_length b s : String.length (Py.title_go b s) = String.length s.
Proof.
  revert b. induction s as [|c s IH]; intros b; [reflexivity|].
  cbn [Py.title_go]. destruct (Py.is_alpha c); cbn [String.length]; rewrite IH;
    reflexivity.
Qed.

Lemma title_go_digits b s :
  Py.sany Py.is_digit (Py.title_go b s) = Py.sany Py.is_digit s.
Proof.
  revert b. induction s as [|c s IH]; intros b; [reflexivity|].
  cbn [Py.title_go]. destruct (Py.is_alpha c) eqn:E; cbn [Py.sany]; rewrite IH.
  - rewrite (title_char_digit _ b E), (alpha_not_digit _ E). reflexivity.
  - reflexivity.
Qed.

Lemma bucket_member k (vals : list string) s :
  s ∈ bucket k (omap classify vals) ->
  exists v, v ∈ vals /\ classify v = Some (Text k s).
Proof.
  unfold bucket. intros H.
  apply list_elem_of_omap in H as (e & He & Hs).
  destruct e as [k' s'|]; [|discriminate].
  destruct (decide (k' = k)) as [->|]; [|discriminate]. injection Hs as ->.
  apply list_elem_of_omap in He as (v & Hv & Hc). eauto.
Qed.

End Buckets.

(** X6.  Whatever the classifier files under a bucket passes the validator
    of the column that bucket fills: the identifier, e-mail, PAN (in upper
    case), Aadhaar and phone values, and the employment and purpose terms in
    title case.  A value filed as a name has at least three characters and no
    digit. *)
Theorem classify_sound (v s : string) (k : Bucket.key) :
  classify v = Some (Text k s) ->
  if decide (k = Bucket.name)
  then 3 <= Py.len s /\ Py.sany Py.is_digit s = false
  else validator_of (target k) s = true.
Proof.
  unfold classify.
  destruct (valid_id v) eqn:E1; [intros H; injection H as <- <-; exact E1|].
  destruct (valid_email v) eqn:E2; [intros H; injection H as <- <-; exact E2|].
  destruct (valid_pan v) eqn:E3.
  { intros H; injection H as <- <-. cbn. rewrite <- E3.
    apply valid_pan_case. }
  destruct (valid_aadhaar v) eqn:E4; [intros H; injection H as <- <-; exact E4|].
  destruct (valid_phone v) eqn:E5; [intros H; injection H as <- <-; exact E5|].
  destruct (str_in (Py.lower v) EMPLOYMENT_TYPES) eqn:E6.
  { intros H; injection H as <- <-. cbn [decide]. 
    apply str_in_elem_of in E6. unfold EMPLOYMENT_TYPES in E6.
    repeat (apply elem_of_cons in E6; destruct E6 as [->|E6]; [reflexivity|]).
    inversion E6. }
  destruct (str_in (Py.lower v) LOAN_PURPOSES) eqn:E7.
  { intros H; injection H as <- <-.
    apply str_in_elem_of in E7. unfold LOAN_PURPOSES in E7.
    repeat (apply elem_of_cons in E7; destruct E7 as [->|E7]; [reflexivity|]).
    inversion E7. }
  destruct (Py.isdigit v); [discriminate|].
  destruct ((3 <=? Py.len v) && negb (Py.sany Py.is_digit v)) eqn:E9; [|discriminate].
  intros H; injection H as <- <-.
  apply andb_prop in E9 as [Hl Hd]. apply negb_true_iff in Hd.
  cbn [decide]. split.
  - unfold Py.len, Py.title. rewrite title_go_length. apply Z.leb_le, Hl.
  - unfold Py.title. rewrite title_go_digits. exact Hd.
Qed.

Lemma classify_sound_witness :
  validator_of (target Bucket.pan) "ABCDE1234F" = true.
Proof. apply (classify_sound "abcde1234f" "ABCDE1234F" Bucket.pan). reflexivity. Defined.

(** ** What repair writes in each column *)

Section RepairFields.

Lemma assign_first_same k f es r :
  get f (assign_first k f es r)
  = match bucket k es with v :: _ => Some v | [] => get f r end.
Proof.
  unfold assign_first. destruct (bucket k es); [reflexivity|].
  rewrite get_set. destruct (decide (f = f)); [reflexivity|contradiction].
Qed.

Lemma assign_number_same n f r :
  get f (assign_number n f r)
  = match n with
    | Some x => if x =? 0 then get f r else Some (Py.str_int x)
    | None => get f r
    end.
Proof.
  unfold assign_number. destruct n as [x|]; [|reflexivity]. cbn [Py.truthy].
  destruct (x =? 0); cbn [negb]; [reflexivity|].
  rewrite get_set. destruct (decide (f = f)); [reflexivity|contradiction].
Qed.

(** The record that steps 3 and 4 build from the classified values [es],
    the identifier [aid] and the prior row [r]. *)
Lemma repair_row_inv conv rows orig_row r u r' u' :
  repair_row conv rows orig_row r u = Ok (r', u') ->
  let es := omap classify (raw_vals conv orig_row) in
  exists aid n u0,
    match bucket Bucket.id es with
    | v :: _ => aid = v /\ u0 = u
    | [] => next_id rows u = Ok (aid, u0)
    end /\
    Py.int (Py.tail aid) = Some n /\ u' = {[ n ]} ∪ u0 /\
    r' = assign_number (fst (numeric_split (numeric es))) LoanAmount
          (assign_number (snd (numeric_split (numeric es))) MonthlyIncome
            (assign_first Bucket.name ApplicantName es
              (assign_first Bucket.purpose LoanPurpose es
                (assign_first Bucket.employment EmploymentType es
                  (assign_first Bucket.phone PhoneNumber es
                    (assign_first Bucket.aadhaar AadhaarNumber es
                      (assign_first Bucket.pan PanNumber es
                        (assign_first Bucket.email Email es
                          (set ApplicantId (Some aid) r))))))))).
Proof.
  intros H. cbv zeta. unfold repair_row in H.
  set (es := omap classify (raw_vals conv orig_row)) in *.
  assert (Hstep : exists aid u0,
             match bucket Bucket.id es with
             | v :: _ => Ok (v, u)
             | [] => next_id rows u
             end = Ok (aid, u0)).
  { destruct (bucket Bucket.id es); [|eauto].
    destruct (next_id rows u) as [[a b]| |]; try discriminate H. eauto. }
  destruct Hstep as (aid & u0 & Hstep). rewrite Hstep in H.
  cbn [mbind result_bind] in H. unfold int_or_raise in H.
  destruct (Py.int (Py.tail aid)) as [n|] eqn:En; [|discriminate H].
  cbn [mbind result_bind] in H.
  destruct (numeric_split (numeric es)) as [loan income] eqn:Ens.
  injection H as <- <-.
  exists aid, n, u0. split; [|auto].
  destruct (bucket Bucket.id es); [exact Hstep|].
  injection Hstep as <- <-. auto.
Qed.

End RepairFields.

(** X7.  In the record [repair] returns for a row, each column is decided
    by its own bucket alone.  A column fed by a bucket holds the first value
    of that bucket when there is one and keeps the prior cell, unvalidated,
    when there is none; the identifier is the first value of the id bucket,
    else a freshly allocated one; the loan amount is the text of the loan
    found by the numeric split, and the monthly income the text of the
    income found unless that is zero; otherwise the prior cells stay. *)
Theorem repair_row_fields conv rows orig_row r u r' u' :
  repair_row conv rows orig_row r u = Ok (r', u') ->
  let es := omap classify (raw_vals conv orig_row) in
  (forall k, k <> Bucket.id ->
     get (target k) r'
     = match bucket k es with v :: _ => Some v | [] => get (target k) r end) /\
  (exists aid,
     get ApplicantId r' = Some aid /\
     match bucket Bucket.id es with
     | v :: _ => aid = v
     | [] => exists u0, next_id rows u = Ok (aid, u0)
     end) /\
  get LoanAmount r'
  = match fst (numeric_split (numeric es)) with
    | Some n => Some (Py.str_int n)
    | None => get LoanAmount r
    end /\
  get MonthlyIncome r'
  = match snd (numeric_split (numeric es)) with
    | Some n => if n =? 0 then get MonthlyIncome r else Some (Py.str_int n)
    | None => get MonthlyIncome r
    end.
Proof.
  intros H. apply repair_row_inv in H. cbv zeta in *.
  set (es := omap classify (raw_vals conv orig_row)) in *.
  destruct H as (aid & n & u0 & Hid & _ & _ & ->).
  split; [|split; [|split]].
  - intros k Hk.
    destruct k; try contradiction; cbn [target];
      repeat first
        [ rewrite assign_number_other by discriminate
        | rewrite assign_first_same
        | rewrite assign_first_other by discriminate ];
      try reflexivity;
      destruct (bucket _ es); try reflexivity;
      rewrite get_set; reflexivity.
  - exists aid. split.
    + rewrite !assign_number_other, !assign_first_other by discriminate.
      rewrite get_set. reflexivity.
    + destruct (bucket Bucket.id es); [eauto|tauto].
  - rewrite assign_number_same.
    destruct (numeric_split (numeric es)) as [loan income] eqn:Ens. cbn [fst].
    destruct loan as [x|].
    + destruct (numeric_split_bounds _ _ _ Ens) as [Hl _].
      specialize (Hl x eq_refl).
      destruct (x =? 0) eqn:E0; [apply Z.eqb_eq in E0; lia|reflexivity].
    + rewrite assign_number_other, !assign_first_other by discriminate.
      rewrite get_set. reflexivity.
  - rewrite assign_number_other by discriminate. rewrite assign_number_same.
    destruct (snd (numeric_split (numeric es))) as [x|];
      [destruct (x =? 0)|]; try reflexivity;
      rewrite !assign_first_other by discriminate; rewrite get_set; reflexivity.
Qed.

Lemma repair_row_fields_witness :
  exists r' u',
    repair_row (fun _ => None) (Some []) [Some "john@x.com"; Some "450000"]
      (set PhoneNumber (Some "bad") blank) ∅ = Ok (r', u') /\
    get Email r' = Some "john@x.com" /\ get PhoneNumber r' = Some "bad".
Proof.
  eexists _, _. split; [vm_compute; reflexivity|].
  edestruct (repair_row_fields (fun _ => None) (Some [])
               [Some "john@x.com"; Some "450000"]
               (set PhoneNumber (Some "bad") blank) ∅) as (Hk & _);
    [vm_compute; reflexivity|].
  split.
  - exact (Hk Bucket.email ltac:(discriminate)).
  - exact (Hk Bucket.phone ltac:(discriminate)).
Defined.

(** ** Every repaired row carries a well-formed identifier *)

Section RepairedIds.

Lemma digit_val_nonneg c : 0 <= Py.digit_val c.
Proof. unfold Py.digit_val. lia. Qed.

Lemma int_body_nonneg s acc b m :
  Py.int_body acc b s = Some m -> 0 <= acc -> 0 <= m.
Proof.
  revert acc b. induction s as [|c s IH]; intros acc b H Hacc; cbn [Py.int_body] in H.
  - destruct b; [injection H as <-; exact Hacc|discriminate].
  - destruct (Py.is_digit c).
    + eapply IH; [exact H|]. pose proof (digit_val_nonneg c). lia.
    + destruct (Ascii.eqb c "_" && b); [|discriminate].
      destruct s; [discriminate|]. eapply IH; [exact H|exact Hacc].
Qed.

Lemma int_digits_nonneg ds m :
  Py.sall Py.is_digit ds = true -> Py.int ds = Some m -> 0 <= m.
Proof.
  intros Hd H. rewrite (int_of_digit_text _ Hd) in H.
  eapply int_body_nonneg; [exact H|lia].
Qed.

Lemma int_digits_newline_eq ds :
  ds <> EmptyString -> Py.sall Py.is_digit ds = true ->
  Py.int (ds +:+ String "010" EmptyString) = Py.int ds.
Proof.
  intros Hne Hd. unfold Py.int, Py.strip.
  rewrite (rstrip_digits_newline _ Hd).
  pose proof (strip_no_blank _ (digits_no_blank _ Hd)) as Hs.
  unfold Py.strip in Hs.
  assert (Hr : Py.rstrip ds = ds).
  { clear Hs Hne. induction ds as [|c ds IH]; [reflexivity|].
    cbn [Py.sall] in Hd. apply andb_prop in Hd as [Hc Hd].
    cbn [Py.rstrip]. rewrite (IH Hd).
    assert (Py.is_space c = false)
      by (destruct c as [[] [] [] [] [] [] [] []]; vm_compute in Hc |- *; congruence).
    destruct ds; [rewrite H|]; reflexivity. }
  rewrite Hr. reflexivity.
Qed.

Lemma strip_blank_head c s :
  Py.is_space c = true -> Py.strip (String c s) = Py.strip s.
Proof.
  intros Hc. unfold Py.strip. cbn [Py.rstrip].
  destruct (Py.rstrip s); rewrite ?Hc; cbn [Py.lstrip]; rewrite ?Hc; reflexivity.
Qed.

Lemma strip_solid_head c s :
  Py.is_space c = false ->
  Py.strip (String c s) = String c (Py.rstrip s).
Proof.
  intros Hc. unfold Py.strip. cbn [Py.rstrip].
  destruct (Py.rstrip s); rewrite ?Hc; cbn [Py.lstrip]; rewrite Hc; reflexivity.
Qed.

Lemma int_of_id_text ds : Py.int (String "A" ds) = None.
Proof.
  unfold Py.int. rewrite strip_solid_head by reflexivity. reflexivity.
Qed.

(** The number read after the first character of a valid identifier is
    not negative. *)
Lemma valid_id_tail_nonneg v n :
  valid_id v = true -> Py.int (Py.tail v) = Some n -> 0 <= n.
Proof.
  rewrite valid_id_shape_eq. intros Hid Hn.
  apply id_shape_text in Hid as (ds & Es & Hne & Hd).
  destruct v as [|c w]; [discriminate Es|]. cbn [Py.tail] in Hn.
  destruct (Py.is_space c) eqn:Ec.
  - rewrite (strip_blank_head _ _ Ec) in Es.
    unfold Py.int in Hn. rewrite Es in Hn.
    change (Py.int_body 0 false (String "A" ds) = Some n) in Hn.
    discriminate Hn.
  - rewrite (strip_solid_head _ _ Ec) in Es. injection Es as -> Er.
    unfold Py.int, Py.strip in Hn. rewrite Er in Hn.
    pose proof (strip_no_blank _ (digits_no_blank _ Hd)) as Hs.
    assert (Hl : Py.lstrip ds = ds).
    { destruct ds as [|d ds]; [reflexivity|].
      cbn [Py.sall] in Hd. apply andb_prop in Hd as [Hc _].
      apply lstrip_head.
      destruct d as [[] [] [] [] [] [] [] []]; vm_compute in Hc |- *; congruence. }
    rewrite Hl in Hn.
    assert (Hn' : Py.int_body 0 false ds = Some n).
    { destruct ds as [|d ds]; [contradiction|].
      cbn [Py.sall] in Hd. apply andb_prop in Hd as [Hc _].
      destruct d as [[] [] [] [] [] [] [] []]; vm_compute in Hc; try discriminate;
        exact Hn. }
    eapply int_body_nonneg; [exact Hn'|lia].
Qed.

Lemma db_ids_nonneg rows m : m ∈ db_ids rows -> 0 <= m.
Proof.
  unfold db_ids. destruct rows as [rs|]; [|set_solver].
  destruct (mapM _ _) as [ns|] eqn:E; [|set_solver].
  intros Hm. apply elem_of_list_to_set in Hm.
  apply mapM_Some_1 in E.
  apply list_elem_of_lookup in Hm as [i Hi].
  destruct (Forall2_lookup_r _ _ _ _ _ E Hi) as (r & Hr & Hint).
  assert (Hin : r ∈ filter (fun r => Is_true (Re.anchored
                   (Re.Cat (Re.Chr "A") (Re.Plus (Re.Cls Py.is_digit))) r)) rs)
    by (eapply list_elem_of_lookup_2; exact Hr).
  apply list_elem_of_filter in Hin as [Hre _].
  apply Is_true_true in Hre.
  apply id_pattern_text in Hre as (ds & Hne & Hd & [-> | ->]); cbn [Py.tail] in Hint.
  - eapply int_digits_nonneg; eassumption.
  - rewrite (int_digits_newline_eq _ Hne Hd) in Hint.
    eapply int_digits_nonneg; eassumption.
Qed.

Lemma str_int_digits n :
  0 <= n -> Py.str_int n <> EmptyString /\ Py.sall Py.is_digit (Py.str_int n) = true.
Proof.
  intros Hn. unfold Py.str_int. destruct n as [|p|p]; [split; [discriminate|reflexivity]| |lia].
  cbn [Z.to_int NilZero.string_of_int].
  pose proof (DecimalPos.Unsigned.to_uint_nonnil p) as Hnil.
  destruct (Pos.to_uint p) as [|d|d|d|d|d|d|d|d|d|d] eqn:E; [contradiction|..];
    cbn [NilZero.string_of_uint NilEmpty.string_of_uint];
    (split; [discriminate|]); cbn [Py.sall]; apply uint_text_digits.
Qed.

Lemma allocated_valid n : 0 <= n -> valid_id (String "A" (Py.str_int n)) = true.
Proof.
  intros Hn. destruct (str_int_digits n Hn) as [Hne Hd].
  rewrite valid_id_shape_eq.
  rewrite strip_no_blank.
  - apply id_shape_text. eauto.
  - unfold no_blank. cbn [Py.sall].
    change (negb (Py.is_space "A")) with true. cbn [andb].
    apply digits_no_blank, Hd.
Qed.

Lemma next_id_nonneg rows (u : gset Z) aid u0 :
  (forall m, m ∈ u -> 0 <= m) ->
  next_id rows u = Ok (aid, u0) -> valid_id aid = true.
Proof.
  intros Hu H. destruct (next_id_spec rows u) as (n & Hn & Hgt & H101).
  rewrite Hn in H. injection H as <- <-.
  apply allocated_valid.
  destruct (decide (db_ids rows ∪ u = ∅)) as [He|Hne].
  - rewrite (H101 He). lia.
  - apply set_choose_L in Hne as [m Hm]. specialize (Hgt m Hm).
    apply elem_of_union in Hm as [Hm|Hm];
      [apply db_ids_nonneg in Hm|apply Hu in Hm]; lia.
Qed.

Lemma repair_row_id conv rows orig_row r (u : gset Z) r' u' :
  (forall m, m ∈ u -> 0 <= m) ->
  repair_row conv rows orig_row r u = Ok (r', u') ->
  (exists aid, applicant_id r' = Some aid /\ valid_id aid = true) /\
  (forall m, m ∈ u' -> 0 <= m).
Proof.
  intros Hu H.
  apply repair_row_inv in H. cbv zeta in *.
  set (es := omap classify (raw_vals conv orig_row)) in *.
  destruct H as (aid & n & u0 & Hid & Hn & -> & Hr).
  assert (Haid : applicant_id r' = Some aid).
  { rewrite Hr. change (applicant_id ?x) with (get ApplicantId x).
    rewrite !assign_number_other, !assign_first_other by discriminate.
    rewrite get_set. reflexivity. }
  assert (Hvalid : valid_id aid = true /\ forall m, m ∈ u0 -> 0 <= m).
  { destruct (bucket Bucket.id es) as [|v rest] eqn:Eb.
    - split; [eapply next_id_nonneg; eassumption|].
      destruct (next_id_spec rows u) as (k & Hk & Hgt & H101).
      rewrite Hk in Hid. injection Hid as <- <-.
      intros m Hm. apply elem_of_union in Hm as [Hm|Hm]; [|auto].
      apply elem_of_singleton in Hm. subst m.
      destruct (decide (db_ids rows ∪ u = ∅)) as [He|Hne]; [rewrite (H101 He); lia|].
      apply set_choose_L in Hne as [m Hm]. specialize (Hgt m Hm).
      apply elem_of_union in Hm as [Hm|Hm];
        [apply db_ids_nonneg in Hm|apply Hu in Hm]; lia.
    - destruct Hid as [-> ->].
      assert (Hin : v ∈ bucket Bucket.id es) by (rewrite Eb; left).
      apply bucket_member in Hin as (raw & _ & Hc).
      apply classify_id in Hc as [-> Hv]. auto. }
  destruct Hvalid as (Hv & Hu0). split; [eauto|].
  intros m Hm. apply elem_of_union in Hm as [Hm|Hm]; [|auto].
  apply elem_of_singleton in Hm. subst m.
  eapply valid_id_tail_nonneg; eassumption.
Qed.

Lemma register_existing_nonneg df (u u' : gset Z) :
  (forall m, m ∈ u -> 0 <= m) ->
  register_existing df u = Ok u' -> forall m, m ∈ u' -> 0 <= m.
Proof.
  unfold register_existing. intros Hu.
  assert (Hacc : forall u0 : gset Z, Ok u = Ok u0 -> forall m, m ∈ u0 -> 0 <= m)
    by (intros u0 E; injection E as <-; exact Hu).
  revert Hacc. generalize (Ok u : result (gset Z)). clear Hu. revert u'.
  induction df as [|r df IH]; intros u' acc Hacc H; cbn [foldl] in H.
  - eauto.
  - eapply IH; [|exact H]. intros u0 H0.
    destruct acc as [ua| |]; cbn [mbind result_bind] in H0; try discriminate.
    specialize (Hacc ua eq_refl).
    destruct (applicant_id r) as [aid|]; [|injection H0 as <-; exact Hacc].
    destruct (valid_id (Py.strip aid)) eqn:Hv; [|injection H0 as <-; exact Hacc].
    unfold int_or_raise in H0.
    destruct (Py.int _) as [n|] eqn:En; cbn [mbind result_bind] in H0;
      [|discriminate].
    injection H0 as <-. intros m Hm.
    apply elem_of_union in Hm as [Hm|Hm]; [|auto].
    apply elem_of_singleton in Hm. subst m.
    eapply valid_id_tail_nonneg; eassumption.
Qed.

Lemma repair_rows_ids conv rows df original (u : gset Z) df' u' :
  (forall m, m ∈ u -> 0 <= m) ->
  repair_rows conv rows df original u = Ok (df', u') ->
  Forall (fun r => exists aid, applicant_id r = Some aid /\ valid_id aid = true) df'.
Proof.
  revert original u df' u'. induction df as [|r df IH];
    intros [|o original] u df' u' Hu H; cbn [repair_rows] in H;
    try (injection H as <- <-; constructor).
  destruct (repair_row conv rows o r u) as [[r1 u1]| |] eqn:Er;
    cbn [mbind result_bind] in H; try discriminate.
  destruct (repair_rows conv rows df original u1) as [[rest u2]| |] eqn:Es;
    cbn [mbind result_bind] in H; try discriminate.
  injection H as <- <-.
  destruct (repair_row_id _ _ _ _ _ _ _ Hu Er) as [Hid Hu1].
  constructor; [exact Hid|]. eapply IH; eassumption.
Qed.

End RepairedIds.

(** X8.  Started from the cleared identifier set, [repair] gives every
    row of the frame an identifier that passes [valid_id], whether it was
    found in the row or allocated, whatever the store holds. *)
Theorem repair_ids_valid conv rows df original_df col_map df' u' :
  repair conv rows df original_df col_map ∅ = Ok (df', u') ->
  Forall (fun r => exists aid, applicant_id r = Some aid /\ valid_id aid = true) df'.
Proof.
  unfold repair. intros H.
  destruct (field_to_excel col_map); cbn [mbind result_bind] in H; try discriminate.
  destruct (register_existing df ∅) as [u1| |] eqn:Er;
    cbn [mbind result_bind] in H; try discriminate.
  eapply repair_rows_ids; [|exact H].
  eapply register_existing_nonneg; [|exact Er]. set_solver.
Qed.

Lemma repair_ids_valid_witness :
  exists df' u',
    repair (fun _ => None) (Some ["A7"]) [blank; blank]
      {| columns := ["c"]; data := [[Some "x1"]; [Some "A3"]] |} [] ∅ = Ok (df', u') /\
    Forall (fun r => exists aid, applicant_id r = Some aid /\ valid_id aid = true) df'.
Proof.
  eexists _, _. split; [vm_compute; reflexivity|].
  eapply (repair_ids_valid (fun _ => None) (Some ["A7"]) [blank; blank]
            {| columns := ["c"]; data := [[Some "x1"]; [Some "A3"]] |} []).
  vm_compute. reflexivity.
Defined.

(** ** Repair keeps every row *)



(** ** What reaches the classifier *)

Section RawValues.

Lemma str_int_no_blank n : no_blank (Py.str_int n) = true.
Proof.
  destruct (Z_lt_le_dec n 0) as [Hn|Hn].
  - destruct n as [|p|p]; try lia. unfold Py.str_int.
    cbn [Z.to_int NilZero.string_of_int].
    pose proof (DecimalPos.Unsigned.to_uint_nonnil p) as Hnil.
    assert (Ht : NilZero.string_of_uint (Pos.to_uint p)
                 = NilEmpty.string_of_uint (Pos.to_uint p))
      by (destruct (Pos.to_uint p); [contradiction|reflexivity..]).
    rewrite Ht. unfold no_blank. cbn [Py.sall].
    change (negb (Py.is_space "-")) with true. cbn [andb].
    apply digits_no_blank, uint_text_digits.
  - apply digits_no_blank, str_int_digits, Hn.
Qed.

Lemma str_int_not_null n : is_null_str (Py.str_int n) = false.
Proof.
  unfold is_null_str. rewrite (strip_no_blank _ (str_int_no_blank n)).
  destruct (Z_lt_le_dec n 0) as [Hn|Hn].
  - destruct n as [|p|p]; try lia. reflexivity.
  - destruct (str_int_digits n Hn) as [Hne Hd].
    destruct (Py.str_int n) as [|c t]; [contradiction|].
    cbn [Py.sall] in Hd. apply andb_prop in Hd as [Hc _].
    destruct c as [[] [] [] [] [] [] [] []]; vm_compute in Hc; try discriminate;
      reflexivity.
Qed.

End RawValues.

(** X10.  The values handed to the classifier are never placeholders and
    carry no surrounding blanks, whatever the cells of the row hold (given
    that the notation fix-up returns the text of an integer). *)
Theorem raw_vals_clean conv orig_row (v : string) :
  (forall val t, conv val = Some t -> exists n, t = Py.str_int n) ->
  v ∈ raw_vals conv orig_row ->
  is_null_str v = false /\ Py.strip v = v.
Proof.
  intros Hconv Hv. unfold raw_vals in Hv.
  apply list_elem_of_omap in Hv as (c & _ & Hc).
  destruct (is_null c) eqn:En; [discriminate|].
  assert (Hplain : is_null_str (Py.strip (py_str c)) = false
                   /\ Py.strip (Py.strip (py_str c)) = Py.strip (py_str c)).
  { split; [|apply strip_idem].
    unfold is_null_str. rewrite strip_idem. exact En. }
  destruct (Py.contains _ _); injection Hc as <-; [|exact Hplain].
  destruct (conv _) as [t|] eqn:E; cbn [default from_option]; [|exact Hplain].
  destruct (Hconv _ _ E) as [n ->].
  split; [apply str_int_not_null|apply strip_no_blank, str_int_no_blank].
Qed.

Lemma raw_vals_clean_witness :
  is_null_str "ab" = false /\ Py.strip "ab" = "ab".
Proof.
  apply (raw_vals_clean (fun _ => None) [Some " nan "; None; Some " ab "]).
  - intros val t H. discriminate H.
  - vm_compute. apply list_elem_of_here.
Defined.

(** ** The numeric split *)

Section SplitSound.

Lemma foldl_split_step_sound (S l : list Z) loan income :
  (forall n, n ∈ l -> n ∈ S) ->
  fits S (Some 500000) None loan -> fits S None (Some 500000) income ->
  fits S (Some 500000) None (fst (foldl split_step (loan, income) l)) /\
  fits S None (Some 500000) (snd (foldl split_step (loan, income) l)).
Proof.
  revert loan income. induction l as [|x l IH]; intros loan income Hin Hl Hi.
  - split; assumption.
  - cbn [foldl].
    replace (split_step (loan, income) x) with
      (if valid_phone (Py.str_int x) then (loan, income)
       else if (x <? 500000) && negb (Py.truthy income) then (loan, Some x)
       else if (x >? 500000) && negb (Py.truthy loan) then (Some x, income)
       else (loan, income)) by reflexivity.
    assert (Hin' : forall n, n ∈ l -> n ∈ S) by (intros n Hn; apply Hin; right; exact Hn).
    assert (Hx : x ∈ S) by (apply Hin; left).
    destruct (valid_phone (Py.str_int x)) eqn:Ep; [apply IH; assumption|].
    destruct ((x <? 500000) && negb (Py.truthy income)) eqn:E1.
    { apply andb_prop in E1 as [E1 _]. apply IH; try assumption.
      intros n Hn. injection Hn as <-. repeat split; try assumption. lia. }
    destruct ((x >? 500000) && negb (Py.truthy loan)) eqn:E2.
    { apply andb_prop in E2 as [E2 _]. apply IH; try assumption.
      intros n Hn. injection Hn as <-. repeat split; try assumption. lia. }
    apply IH; assumption.
Qed.

End SplitSound.

(** X11.  The numeric split only assigns values of the row: the loan it
    finds is one of the numeric values, strictly above 500000, and the income
    is one of them, strictly below 500000; neither reads as a phone number,
    and 500000 itself is never assigned. *)
Theorem numeric_split_sound (nums : list Z) loan income :
  numeric_split nums = (loan, income) ->
  (forall n, loan = Some n ->
     n ∈ nums /\ 500000 < n /\ valid_phone (Py.str_int n) = false) /\
  (forall n, income = Some n ->
     n ∈ nums /\ n < 500000 /\ valid_phone (Py.str_int n) = false).
Proof.
  unfold numeric_split. intros H.
  destruct (foldl_split_step_sound nums (sorted nums) None None) as [Hl Hi];
    try (intros n Hn; discriminate Hn).
  { intros n Hn. apply list_elem_of_In. apply list_elem_of_In in Hn.
    eapply Permutation_in; [symmetry; apply sorted_perm|exact Hn]. }
  rewrite H in Hl, Hi. cbn [fst snd] in Hl, Hi.
  split; intros n Hn.
  - destruct (Hl n Hn) as (? & ? & ? & _). auto.
  - destruct (Hi n Hn) as (? & ? & _ & ?). auto.
Qed.

Lemma numeric_split_sound_witness :
  (forall n, Some 700000 = Some n ->
     n ∈ [100; 700000; 500000] /\ 500000 < n /\ valid_phone (Py.str_int n) = false) /\
  (forall n, Some 100 = Some n ->
     n ∈ [100; 700000; 500000] /\ n < 500000 /\ valid_phone (Py.str_int n) = false).
Proof. apply (numeric_split_sound [100; 700000; 500000]). reflexivity. Defined.

(** X12.  On a row whose numeric values are all different from zero the
    numeric split follows its rule: of the values in ascending order that do
    not read as phone numbers, the first above 500000 is the loan and the
    first below 500000 is the income. *)
Theorem numeric_split_rule (nums : list Z) :
  Forall (fun n => n <> 0) nums ->
  numeric_split nums
  = (List.find (fun n => n >? 500000) (List.filter not_phone (sorted nums)),
     List.find (fun n => n <? 500000) (List.filter not_phone (sorted nums))).
Proof. intros H. rewrite (numeric_split_nonzero _ H). reflexivity. Qed.

Lemma numeric_split_rule_witness :
  numeric_split [600000; 450000; 9876543210; 20]
  = (List.find (fun n => n >? 500000)
       (List.filter not_phone (sorted [600000; 450000; 9876543210; 20])),
     List.find (fun n => n <? 500000)
       (List.filter not_phone (sorted [600000; 450000; 9876543210; 20]))).
Proof. apply numeric_split_rule. repeat constructor; discriminate. Defined.

(** ** The invalidation pass *)

Section Invalidation.

Lemma record_ext (a b : record) : (forall f, get f a = get f b) -> a = b.
Proof.
  intros H. destruct a, b.
  pose proof (H ApplicantId). pose proof (H ApplicantName).
  pose proof (H PhoneNumber). pose proof (H Email).
  pose proof (H AadhaarNumber). pose proof (H PanNumber).
  pose proof (H LoanAmount). pose proof (H LoanPurpose).
  pose proof (H EmploymentType). pose proof (H MonthlyIncome).
  cbn in *. congruence.
Qed.

Lemma invalidate_cell_other r f vd g :
  g <> f -> get g (invalidate_cell r (f, vd)) = get g r.
Proof.
  intros Hne. unfold invalidate_cell.
  destruct (skip f); [reflexivity|].
  destruct (_ || _); [|reflexivity].
  rewrite get_set. destruct (decide (g = f)); [contradiction|reflexivity].
Qed.

Lemma invalidate_cell_same r f vd :
  get f (invalidate_cell r (f, vd))
  = if skip f then get f r
    else if is_null_str (Py.strip (py_str (get f r)))
            || negb (vd (Py.strip (py_str (get f r))))
         then None else get f r.
Proof.
  unfold invalidate_cell.
  destruct (skip f); [reflexivity|].
  destruct (_ || _); [|reflexivity].
  rewrite get_set. destruct (decide (f = f)); [reflexivity|contradiction].
Qed.

Lemma invalidate_row_get r g :
  get g (foldl invalidate_cell r FIELD_VALIDATORS) = invalidated g (get g r).
Proof.
  unfold FIELD_VALIDATORS. cbn [foldl].
  destruct g;
    repeat first [ rewrite invalidate_cell_other by discriminate
                 | rewrite invalidate_cell_same ];
    reflexivity.
Qed.

Lemma validator_of_strip f v : validator_of f (Py.strip v) = validator_of f v.
Proof.
  pose proof (field_validators_strip v) as H. rewrite Forall_forall in H.
  destruct f;
    match goal with
    | |- validator_of ?f _ = _ =>
        apply (H (f, validator_of f)); unfold FIELD_VALIDATORS;
        repeat first [apply list_elem_of_here | apply list_elem_of_further]
    end.
Qed.

Lemma invalidated_twice f c : invalidated f (invalidated f c) = invalidated f c.
Proof.
  unfold invalidated. destruct (skip f); [reflexivity|]. cbv zeta.
  destruct (is_null_str (Py.strip (py_str c))
            || negb (validator_of f (Py.strip (py_str c)))) eqn:E.
  - reflexivity.
  - rewrite E. reflexivity.
Qed.

End Invalidation.

Lemma invalidate_map (df : list record) :
  invalidate df = (fun r => build (fun f => invalidated f (get f r))) <$> df.
Proof.
  unfold invalidate. apply map_ext. intros r. apply record_ext. intros f.
  rewrite invalidate_row_get, get_build. reflexivity.
Qed.

(** X13.  [invalidate] works cell by cell and keeps the shape of the frame:
    a cell of the columns loan_amount and monthly_income is never touched;
    any other cell is emptied when it is a placeholder or fails the
    validator of its column, and is kept as it is otherwise. *)
Theorem invalidate_cells (df : list record) :
  invalidate df = (fun r => build (fun f => invalidated f (get f r))) <$> df /\
  (forall r, get LoanAmount (foldl invalidate_cell r FIELD_VALIDATORS)
             = get LoanAmount r /\
             get MonthlyIncome (foldl invalidate_cell r FIELD_VALIDATORS)
             = get MonthlyIncome r).
Proof.
  split; [apply invalidate_map|].
  intros r. rewrite !invalidate_row_get. split; reflexivity.
Qed.

(** X14.  After [invalidate], every cell outside the two numeric columns is
    empty or holds a text that passes the validator of its column and is
    no placeholder; and running the pass a second time changes nothing. *)
Theorem invalidate_settles (df : list record) :
  Forall (fun r =>
            forall f, skip f = false ->
              get f r = None \/
              exists s, get f r = Some s /\ validator_of f s = true
                        /\ is_null_str s = false)
         (invalidate df) /\
  invalidate (invalidate df) = invalidate df.
Proof.
  pose proof (invalidate_map df) as Hdf. split.
  - rewrite Hdf. apply Forall_fmap, Forall_forall. intros r _ f Hf. cbn.
    rewrite get_build. unfold invalidated. rewrite Hf. cbv zeta.
    destruct (is_null_str _ || negb _) eqn:E; [left; reflexivity|].
    apply orb_false_elim in E as [En Ev]. apply negb_false_iff in Ev.
    destruct (get f r) as [s|]; [|discriminate En]. right. exists s.
    change (py_str (Some s)) with s in *.
    rewrite validator_of_strip in Ev.
    split; [reflexivity|]. split; [exact Ev|].
    unfold is_null_str in *. rewrite strip_idem in En. exact En.
  - rewrite (invalidate_map (invalidate df)). rewrite Hdf.
    rewrite <- list_fmap_compose. apply list_fmap_ext. intros _ r _. cbn.
    apply record_ext. intros f. rewrite !get_build. apply invalidated_twice.
Qed.

(** ** Upsert over a whole batch *)

Section UpsertBatch.

Implicit Types (t : gmap string stored_row) (df : list record).

(** One accepted record: the table after its statement. *)
Lemma upsert_rows_cons db r df t ins upd res :
  upsert_rows db (r :: df) t ins upd = Ok res ->
  exists k,
    rejects db (params r) = false /\ applicant_id (params r) = Some k /\
    upsert_rows db df
      (<[ k := {| fields := params r;
                  created_at := match t !! k with
                                | Some o => created_at o
                                | None => now db
                                end |} ]> t)
      (if bool_decide (is_Some (t !! k)) then ins else ins + 1)
      (if bool_decide (is_Some (t !! k)) then upd + 1 else upd) = Ok res.
Proof.
  cbn [upsert_rows]. cbv zeta. intros H.
  destruct (rejects db (params r)); [discriminate|].
  destruct (applicant_id (params r)) as [k|]; [|discriminate].
  exists k. split; [reflexivity|]. split; [reflexivity|].
  destruct (t !! k) as [o|] eqn:E.
  - rewrite bool_decide_eq_true_2 in H |- * by eauto.
    rewrite (alter_alt_Some _ _ _ _ E) in H. exact H.
  - rewrite bool_decide_eq_false_2 in H |- * by (intros [? ?]; discriminate).
    exact H.
Qed.

Lemma upsert_rows_lookup db df t ins upd t' ins' upd' k :
  upsert_rows db df t ins upd = Ok (t', ins', upd') ->
  t' !! k = upserted (now db) k df (t !! k).
Proof.
  revert t ins upd. induction df as [|r df IH]; intros t ins upd H.
  - cbn in H. injection H as <- _ _. reflexivity.
  - apply upsert_rows_cons in H as (k0 & _ & Hk0 & H).
    rewrite (IH _ _ _ H). unfold upserted. cbn [last_params].
    destruct (last_params k df) as [d|].
    + destruct (decide (k0 = k)) as [->|Hne].
      * rewrite lookup_insert_eq. reflexivity.
      * rewrite lookup_insert_ne by exact Hne. reflexivity.
    + rewrite Hk0. destruct (decide (k0 = k)) as [->|Hne].
      * rewrite bool_decide_eq_true_2 by reflexivity.
        rewrite lookup_insert_eq. reflexivity.
      * rewrite bool_decide_eq_false_2 by congruence.
        rewrite lookup_insert_ne by exact Hne. reflexivity.
Qed.

Lemma upsert_rows_counts db df t ins upd t' ins' upd' :
  upsert_rows db df t ins upd = Ok (t', ins', upd') ->
  ins <= ins' /\ upd <= upd' /\
  (ins' - ins) + (upd' - upd) = Z.of_nat (length df) /\
  Z.of_nat (size t') = Z.of_nat (size t) + (ins' - ins).
Proof.
  revert t ins upd. induction df as [|r df IH]; intros t ins upd H.
  - cbn in H. injection H as <- <- <-. cbn. lia.
  - apply upsert_rows_cons in H as (k0 & _ & _ & H).
    apply IH in H. rewrite map_size_insert in H. cbn [length].
    destruct (t !! k0) as [o|].
    + rewrite bool_decide_eq_true_2 in H by eauto. cbn in H. lia.
    + rewrite bool_decide_eq_false_2 in H by (intros [? ?]; discriminate).
      cbn in H. lia.
Qed.

Lemma last_params_member k df r :
  r ∈ df -> applicant_id (params r) = Some k -> is_Some (last_params k df).
Proof.
  induction df as [|r0 df IH]; intros Hin Hk; [inversion Hin|].
  cbn [last_params]. destruct (last_params k df) as [d|] eqn:E; [eauto|].
  apply elem_of_cons in Hin as [->|Hin].
  - rewrite bool_decide_eq_true_2 by exact Hk. eauto.
  - destruct (IH Hin Hk) as [? ?]. discriminate.
Qed.

Lemma upsert_rows_accepted db df t ins upd res :
  upsert_rows db df t ins upd = Ok res ->
  Forall (fun r => rejects db (params r) = false /\
                   exists k, applicant_id (params r) = Some k) df.
Proof.
  revert t ins upd. induction df as [|r df IH]; intros t ins upd H; [constructor|].
  apply upsert_rows_cons in H as (k0 & Hr & Hk & H).
  constructor; [eauto|]. eapply IH, H.
Qed.

(** A batch all of whose keys are in the table only updates. *)
Lemma upsert_rows_present db df t ins upd :
  Forall (fun r => rejects db (params r) = false /\
                   exists k, applicant_id (params r) = Some k /\ is_Some (t !! k)) df ->
  exists t',
    upsert_rows db df t ins upd = Ok (t', ins, upd + Z.of_nat (length df)).
Proof.
  revert t upd. induction df as [|r df IH]; intros t upd H.
  - exists t. cbn [upsert_rows length].
    replace (upd + Z.of_nat 0) with upd by lia. reflexivity.
  - apply Forall_cons in H as [(Hr & k & Hk & Hin) H].
    cbn [upsert_rows]. cbv zeta. rewrite Hr, Hk.
    rewrite bool_decide_eq_true_2 by exact Hin.
    edestruct (IH (alter (fun old => {| fields := params r;
                                        created_at := created_at old |}) k t)
                  (upd + 1)) as [t' Ht'].
    { eapply Forall_impl; [exact H|]. intros r' (Hr' & k' & Hk' & Hin').
      split; [exact Hr'|]. exists k'. split; [exact Hk'|].
      apply lookup_alter_is_Some. exact Hin'. }
    exists t'. rewrite Ht'. cbn [length].
    replace (upd + Z.of_nat (S (length df))) with (upd + 1 + Z.of_nat (length df))
      by lia.
    reflexivity.
Qed.

End UpsertBatch.

(** X15.  After a successful [upsert] the store holds, under every key of
    the batch, the values of the last record of the batch with that key; a
    row that was there before keeps its creation time, a new one gets the
    current time; and every row whose key is not in the batch is as it
    was. *)
Theorem upsert_last_write_wins db df ins upd db' (k : string) :
  upsert db df = (Ok (ins, upd), db') ->
  loan_applicants db' !! k
  = upserted (now db) k df (loan_applicants db !! k).
Proof.
  unfold upsert. destruct (reachable db); [|discriminate].
  destruct (upsert_rows db df (loan_applicants db) 0 0) as [[[t i] u]| |] eqn:E;
    try discriminate.
  intros H. injection H as _ _ <-. cbn [with_table loan_applicants].
  eapply upsert_rows_lookup, E.
Qed.

Lemma upsert_last_write_wins_witness :
  let r1 := set ApplicantId (Some "A1") (set Email (Some "a@x.io") blank) in
  let r2 := set ApplicantId (Some "A1") (set Email (Some "b@x.io") blank) in
  exists db',
    upsert empty_store [r1; r2] = (Ok (1, 1), db') /\
    loan_applicants db' !! "A1"
    = upserted (now empty_store) "A1" [r1; r2] (loan_applicants empty_store !! "A1").
Proof.
  intros r1 r2. eexists. split; [vm_compute; reflexivity|].
  eapply (upsert_last_write_wins empty_store [r1; r2] 1 1). vm_compute. reflexivity.
Defined.

(** X16.  The counts returned by [upsert] add up to the number of records
    of the batch, and the table grows by exactly the number of
    insertions. *)
Theorem upsert_counts db df ins upd db' :
  upsert db df = (Ok (ins, upd), db') ->
  0 <= ins /\ 0 <= upd /\ ins + upd = Z.of_nat (length df) /\
  Z.of_nat (size (loan_applicants db'))
  = Z.of_nat (size (loan_applicants db)) + ins.
Proof.
  unfold upsert. destruct (reachable db); [|discriminate].
  destruct (upsert_rows db df (loan_applicants db) 0 0) as [[[t i] u]| |] eqn:E;
    try discriminate.
  intros H. injection H as <- <- <-. cbn [with_table loan_applicants].
  apply upsert_rows_counts in E. lia.
Qed.

Lemma upsert_counts_witness :
  let r1 := set ApplicantId (Some "A1") blank in
  let r2 := set ApplicantId (Some "A2") blank in
  exists db',
    upsert empty_store [r1; r2; r1] = (Ok (2, 1), db') /\
    Z.of_nat (size (loan_applicants db'))
    = Z.of_nat (size (loan_applicants empty_store)) + 2.
Proof.
  intros r1 r2. eexists. split; [vm_compute; reflexivity|].
  eapply (upsert_counts empty_store [r1; r2; r1] 2 1). vm_compute. reflexivity.
Defined.

(** X17.  [upsert] is idempotent on a batch: running it again with the
    same records, at whatever later time, inserts nothing, updates every
    record, and leaves the table exactly as the first run left it, creation
    times included. *)
Theorem upsert_again db df ins upd db1 (later : Z) :
  upsert db df = (Ok (ins, upd), db1) ->
  let db2 := {| reachable := reachable db1; rejects := rejects db1;
                now := later; loan_applicants := loan_applicants db1 |} in
  upsert db2 df = (Ok (0, Z.of_nat (length df)), db2).
Proof.
  unfold upsert. destruct (reachable db) eqn:Hup; [|discriminate].
  destruct (upsert_rows db df (loan_applicants db) 0 0) as [[[t1 i] u]| |] eqn:E;
    try discriminate.
  intros H. injection H as _ _ <-. cbv zeta.
  cbn [with_table reachable rejects loan_applicants].
  rewrite Hup.
  set (db2 := {| reachable := true; rejects := rejects db; now := later;
                 loan_applicants := t1 |}).
  assert (Hpresent : Forall (fun r =>
            rejects db2 (params r) = false /\
            exists k, applicant_id (params r) = Some k /\ is_Some (t1 !! k)) df).
  { pose proof (upsert_rows_accepted _ _ _ _ _ _ E) as Hacc.
    rewrite Forall_forall in Hacc |- *. intros r Hr.
    destruct (Hacc r Hr) as (Hrej & k & Hk). split; [exact Hrej|].
    exists k. split; [exact Hk|].
    rewrite (upsert_rows_lookup _ _ _ _ _ _ _ _ k E). unfold upserted.
    destruct (last_params_member k df r Hr Hk) as [d ->]. eauto. }
  destruct (upsert_rows_present db2 df t1 0 0 Hpresent) as [t2 Ht2].
  rewrite Ht2. rewrite Z.add_0_l.
  assert (Ht : t2 = t1); [|rewrite Ht; reflexivity].
  apply map_eq. intros k.
  rewrite (upsert_rows_lookup _ _ _ _ _ _ _ _ k Ht2).
  rewrite (upsert_rows_lookup _ _ _ _ _ _ _ _ k E).
  unfold upserted.
  destruct (last_params k df); [|reflexivity].
  destruct (loan_applicants db !! k); reflexivity.
Qed.

Lemma upsert_again_witness :
  let r1 := set ApplicantId (Some "A1") blank in
  let r2 := set ApplicantId (Some "A2") blank in
  exists db1,
    upsert empty_store [r1; r2; r1] = (Ok (2, 1), db1) /\
    upsert {| reachable := reachable db1; rejects := rejects db1;
              now := now db1 + 60; loan_applicants := loan_applicants db1 |}
           [r1; r2; r1]
    = (Ok (0, 3),
       {| reachable := reachable db1; rejects := rejects db1;
          now := now db1 + 60; loan_applicants := loan_applicants db1 |}).
Proof.
  intros r1 r2. eexists. split; [vm_compute; reflexivity|].
  eapply (upsert_again empty_store [r1; r2; r1] 2 1). vm_compute. reflexivity.
Defined.

(** ** The upload endpoint *)

(** X18.  When [upload] answers, the two counts it reports add up to the
    number of rows of the sheet and the table has grown by the number of
    insertions; when it raises, at whatever step, the store is left as it
    was. *)
Theorem upload_outcome loads conv db resp (sheet : frame) :
  (forall out db',
      upload loads conv db resp sheet = (Ok out, db') ->
      inserted out + updated out = Z.of_nat (length (data sheet)) /\
      Z.of_nat (size (loan_applicants db'))
      = Z.of_nat (size (loan_applicants db)) + inserted out) /\
  (forall e db', upload loads conv db resp sheet = (Raise e, db') -> db' = db).
Proof.
  unfold upload.
  destruct (ingest loads conv db resp sheet) as [[mp df]| |] eqn:Ei.
  - apply ingest_length in Ei. unfold upsert.
    destruct (reachable db).
    + destruct (upsert_rows db df (loan_applicants db) 0 0) as [[[t i] u]| |] eqn:E.
      * apply upsert_rows_counts in E. split.
        -- intros out db' H. injection H as <- <-.
           cbn [inserted updated with_table loan_applicants]. lia.
        -- intros e db' H. discriminate H.
      * split; [intros out db' H; discriminate H|].
        intros e' db' H. injection H as _ <-. reflexivity.
      * split; intros ? ? H; discriminate H.
    + split; [intros out db' H; discriminate H|].
      intros e' db' H. injection H as _ <-. reflexivity.
  - split; [intros out db' H; discriminate H|].
    intros e' db' H. injection H as _ <-. reflexivity.
  - split; intros ? ? H; discriminate H.
Qed.

Lemma upload_outcome_witness :
  exists out db',
    upload (fun _ => None) (fun _ => None) empty_store (Json (JObj []))
      {| columns := ["c"]; data := [[Some "A5"]; [Some "A5"]; [None]] |}
    = (Ok out, db') /\
    inserted out + updated out = 3.
Proof.
  eexists _, _. split; [vm_compute; reflexivity|].
  eapply (proj1 (upload_outcome (fun _ => None) (fun _ => None) empty_store
                   (Json (JObj []))
                   {| columns := ["c"]; data := [[Some "A5"]; [Some "A5"]; [None]] |})).
  vm_compute. reflexivity.
Defined.

(** ** Oracle bodies that are no object *)

(** X19.  A JSON body that is not an object never yields a mapping: null,
    a boolean or a number, a list holding the string "result" or "mapping",
    and a string containing one of these words raise TypeError; any other
    list or string gives the empty dictionary. *)
Theorem call_llm_other_bodies loads (raw : json) :
  is_object raw = false ->
  call_llm loads (Json raw) = if trips raw then Raise TypeError else Ok [].
Proof.
  intros H. unfold call_llm, decode_mapping.
  destruct raw as [| | | s | l | d]; try discriminate H; try reflexivity;
    cbn [py_in py_getitem trips mbind result_bind].
  - destruct (Py.contains "result" s); cbn [mbind result_bind orb]; [reflexivity|].
    destruct (Py.contains "mapping" s); reflexivity.
  - destruct (existsb (is_JStr "result") l); cbn [mbind result_bind orb];
      [reflexivity|].
    destruct (existsb (is_JStr "mapping") l); reflexivity.
Qed.

Lemma call_llm_other_bodies_witness :
  call_llm (fun _ => None) (Json (JArr [JStr "mapping"])) = Raise TypeError /\
  call_llm (fun _ => None) (Json (JArr [JNull])) = Ok [].
Proof.
  split.
  - apply (call_llm_other_bodies (fun _ => None) (JArr [JStr "mapping"])). reflexivity.
  - apply (call_llm_other_bodies (fun _ => None) (JArr [JNull])). reflexivity.
Defined.

(** ** Renaming and completing the columns *)

Section Columns.




End Columns.



(** ** The notation fix-up *)

Section Exponent.

Lemma lower_char_is_e a :
  Ascii.eqb "e" (Py.lower_char a) = Ascii.eqb "E" a || Ascii.eqb "e" a.
Proof. by_char a. Qed.

Lemma lower_char_is_plus b : Ascii.eqb "+" (Py.lower_char b) = Ascii.eqb "+" b.
Proof. by_char b. Qed.

Lemma prefix_two x y s :
  String.prefix (String x (String y EmptyString)) s
  = match s with
    | String a (String b _) => Ascii.eqb x a && Ascii.eqb y b
    | _ => false
    end.
Proof.
  destruct s as [|a [|b r]]; cbn [String.prefix]; [reflexivity| |].
  - destruct (ascii_dec x a); reflexivity.
  - destruct (ascii_dec x a) as [->|Hx].
    + rewrite Ascii.eqb_refl. destruct (ascii_dec y b) as [->|Hy].
      * rewrite Ascii.eqb_refl. destruct r; reflexivity.
      * apply Ascii.eqb_neq in Hy. rewrite Hy. reflexivity.
    + apply Ascii.eqb_neq in Hx. rewrite Hx. reflexivity.
Qed.

Lemma contains_exponent s :
  Py.contains "e+" (Py.lower s) = Py.contains "E+" s || Py.contains "e+" s.
Proof.
  induction s as [|a s IH]; [reflexivity|].
  change (Py.lower (String a s)) with (String (Py.lower_char a) (Py.lower s)).
  cbn [Py.contains]. rewrite IH, !prefix_two.
  destruct s as [|b r].
  - cbn [Py.lower Py.smap]. reflexivity.
  - change (Py.lower (String b r)) with (String (Py.lower_char b) (Py.lower r)).
    rewrite lower_char_is_e, lower_char_is_plus.
    destruct (Ascii.eqb "E" a), (Ascii.eqb "e" a), (Ascii.eqb "+" b),
      (Py.contains "E+" (String b r)), (Py.contains "e+" (String b r));
      reflexivity.
Qed.

End Exponent.

(** X21.  Step 1 of [repair] normalises a cell the way [normalize_number]
    does: the values handed to the classifier are the trimmed texts of the
    cells that are no placeholders, each passed through
    [normalize_number]. *)
Theorem raw_vals_normalize conv (orig_row : list cell) :
  raw_vals conv orig_row
  = omap (fun c : cell =>
            if is_null c then None
            else Some (normalize_number conv (Py.strip (py_str c)))) orig_row.
Proof.
  unfold raw_vals, normalize_number. apply list_omap_ext.
  apply Forall2_same_length_lookup. split; [reflexivity|].
  intros i c c' Hc Hc'. rewrite Hc in Hc'. injection Hc' as <-.
  destruct (is_null c); [reflexivity|]. rewrite contains_exponent. reflexivity.
Qed.

(** ** The allocator and the store *)

Section AllocatorStore.

Lemma db_ids_member (rs : list string) r m :
  r ∈ rs ->
  Re.anchored (Re.Cat (Re.Chr "A") (Re.Plus (Re.Cls Py.is_digit))) r = true ->
  Py.int (Py.tail r) = Some m ->
  m ∈ db_ids (Some rs).
Proof.
  intros Hr Hre Hm. unfold db_ids.
  set (matching := filter _ rs).
  assert (Hin : r ∈ matching).
  { apply list_elem_of_filter. split; [apply Is_true_true, Hre|exact Hr]. }
  assert (Hsome : is_Some (mapM (fun r => Py.int (Py.tail r)) matching)).
  { apply mapM_is_Some, Forall_forall. intros x Hx.
    apply list_elem_of_filter in Hx as [Hx _]. apply Is_true_true in Hx.
    apply id_pattern_text in Hx as (ds & Hne & Hd & [-> | ->]); cbn [Py.tail compose];
      apply int_digits_newline; assumption. }
  destruct Hsome as [ns Hns]. rewrite Hns.
  apply elem_of_list_to_set.
  apply mapM_Some_1 in Hns.
  apply list_elem_of_lookup in Hin as [i Hi].
  destruct (Forall2_lookup_l _ _ _ _ _ Hns Hi) as (y & Hy & Hfy).
  rewrite Hm in Hfy. injection Hfy as <-.
  eapply list_elem_of_lookup_2, Hy.
Qed.

Lemma next_id_number rows (u : gset Z) aid u' :
  (forall m, m ∈ u -> 0 <= m) ->
  next_id rows u = Ok (aid, u') ->
  exists n, aid = String "A" (Py.str_int n) /\ 0 <= n /\
            forall m, m ∈ db_ids rows ∪ u -> m < n.
Proof.
  intros Hu H. destruct (next_id_spec rows u) as (n & Hn & Hgt & H101).
  rewrite Hn in H. injection H as <- _. exists n. split; [reflexivity|].
  split; [|exact Hgt].
  destruct (decide (db_ids rows ∪ u = ∅)) as [He|Hne]; [rewrite (H101 He); lia|].
  apply set_choose_L in Hne as [m Hm]. specialize (Hgt m Hm).
  apply elem_of_union in Hm as [Hm|Hm];
    [apply db_ids_nonneg in Hm|apply Hu in Hm]; lia.
Qed.

End AllocatorStore.

(** X22.  [next_id] never returns a key that the store holds: whatever keys
    the read of the store gives, the identifier allocated is none of
    them. *)
Theorem next_id_not_in_store (rs : list string) (u : gset Z) aid u' :
  (forall m, m ∈ u -> 0 <= m) ->
  next_id (Some rs) u = Ok (aid, u') ->
  aid ∉ rs.
Proof.
  intros Hu H Hin.
  destruct (next_id_number _ _ _ _ Hu H) as (n & -> & Hn & Hgt).
  destruct (str_int_digits n Hn) as [Hne Hd].
  assert (Hm : n ∈ db_ids (Some rs)).
  { eapply db_ids_member; [exact Hin| |].
    - apply id_pattern_accepts; assumption.
    - cbn [Py.tail]. apply int_str_int. }
  assert (n < n) by (apply Hgt; set_solver). lia.
Qed.

Lemma next_id_not_in_store_witness :
  "A106" ∉ ["A101"; "B7"; "A105"].
Proof.
  apply (next_id_not_in_store ["A101"; "B7"; "A105"] ∅ "A106" {[ 106 ]}).
  - intros m Hm. set_solver.
  - vm_compute. reflexivity.
Defined.
